(** * Export of circuits to qpic documents: a model of
    [tequila/circuit/qpic.py] and the properties of its three functions,
    [assign_name], [export_to_qpic] and [export_to]. *)

From Stdlib Require Import ZArith NArith Bool List Lia.
From Stdlib Require Import Ascii String DecimalString Floats.
From stdpp Require Import base option list gmap strings.

Local Open Scope string_scope.
Local Open Scope Z_scope.

(** ** Python values the module relies on *)

Module Py.

(** Exceptions the module raises itself or lets escape. *)
Inductive exn : Type :=
| KeyError
| IndexError
| AttributeError
| Exception (msg : string).

Inductive result (A : Type) : Type :=
| Ok (a : A)
| Raise (e : exn).
Arguments Ok {A} a.
Arguments Raise {A} e.

Definition bind {A B : Type} (r : result A) (k : A -> result B) : result B :=
  match r with
  | Ok a => k a
  | Raise e => Raise e
  end.

(** The newline character, written "\n" in the source. *)
Definition nl : string := String (ascii_of_nat 10) EmptyString.

(** [str(n)] for a non-negative integer. *)
Definition str (n : N) : string := NilZero.string_of_uint (N.to_uint n).

(** [s.upper()] on the ASCII letters. *)
Definition upper_char (c : ascii) : ascii :=
  let n := nat_of_ascii c in
  if (97 <=? n)%nat && (n <=? 122)%nat then ascii_of_nat (n - 32) else c.

Fixpoint upper (s : string) : string :=
  match s with
  | EmptyString => EmptyString
  | String c s' => String (upper_char c) (upper s')
  end.

(** [s.lstrip(c)] and [s.rstrip(c)] for a one-character set. *)
Fixpoint lstrip (c : ascii) (s : string) : string :=
  match s with
  | EmptyString => EmptyString
  | String a s' => if Ascii.eqb a c then lstrip c s' else s
  end.

Fixpoint rstrip (c : ascii) (s : string) : string :=
  match s with
  | EmptyString => EmptyString
  | String a s' =>
      match rstrip c s' with
      | EmptyString => if Ascii.eqb a c then EmptyString else String a EmptyString
      | r => String a r
      end
  end.

(** [c in s] for a character. *)
Fixpoint contains (c : ascii) (s : string) : bool :=
  match s with
  | EmptyString => false
  | String a s' => Ascii.eqb a c || contains c s'
  end.

(** [s.split(c)]: the segments between the occurrences of [c]; never
    empty, and one segment more than there are occurrences. *)
Fixpoint split (c : ascii) (s : string) : list string :=
  match s with
  | EmptyString => [EmptyString]
  | String a s' =>
      if Ascii.eqb a c then EmptyString :: split c s'
      else match split c s' with
           | [] => [String a EmptyString]
           | seg :: segs => String a seg :: segs
           end
  end.

(** [sep.join(l)] with the empty separator. *)
Definition join (l : list string) : string := String.concat EmptyString l.

(** [s.endswith(suffix)]. *)
Definition endswith (s suffix : string) : bool :=
  let n := String.length s in
  let k := String.length suffix in
  (k <=? n)%nat && String.eqb (String.substring (n - k) k s) suffix.

(** [len(s)]: Python counts characters, and a string is held here as its
    UTF-8 bytes, so the bytes that continue a character (10xxxxxx, 128 to
    191) are not counted. *)
Definition starts_character (b : ascii) : bool :=
  let n := nat_of_ascii b in
  (n <? 128)%nat || (191 <? n)%nat.

Fixpoint len (s : string) : nat :=
  match s with
  | EmptyString => 0%nat
  | String b s' => if starts_character b then S (len s') else len s'
  end.

(** [l[:-1]] and [l[-1]]. *)
Definition init {A : Type} (l : list A) : list A := removelast l.
Definition last_item (l : list string) : string := List.last l EmptyString.

End Py.

Import Py.

#[export] Instance result_ret : MRet Py.result := @Py.Ok.
#[export] Instance result_bind : MBind Py.result :=
  fun A B k r => Py.bind r k.

(** ** Floating point: [numpy.isclose] and the format [{:+2.4f}] *)

Module Float64.

Local Open Scope float_scope.

(** [numpy.pi], the double nearest to pi. *)
Definition pi : float := 0x1.921fb54442d18p+1.

(** The doubles that the literals [1.e-4] and [1e-5] denote. *)
Definition atol_1e_4 : float := 0x1.a36e2eb1c432dp-14.
Definition rtol_default : float := 0x1.4f8b588e368f1p-17.

(** [float(i)] for a small integer. *)
Definition of_N (i : N) : float := PrimFloat.of_uint63 (Uint63.of_Z (Z.of_N i)).

(** [numpy.isclose(a, b, atol=atol)]: the relative tolerance keeps its
    default, so the test is |a - b| <= atol + rtol * |b|. *)
Definition isclose (a b atol : float) : bool :=
  PrimFloat.leb (abs (a - b)) (atol + rtol_default * abs b).

Local Close Scope float_scope.

Definition sign_str (negative : bool) : string :=
  if negative then "-" else "+".

Definition digit (d : Z) : ascii := ascii_of_nat (48 + Z.to_nat d).

(** Nearest integer to [num / den], ties to even. *)
Definition round_half_even (num den : Z) : Z :=
  let q := num / den in
  let r := num mod den in
  if (den <? 2 * r) || ((2 * r =? den) && Z.odd q) then q + 1 else q.

(** The four digits after the point, for [0 <= n < 10000]. *)
Definition frac4 (n : Z) : string :=
  String (digit (n / 1000 mod 10))
    (String (digit (n / 100 mod 10))
       (String (digit (n / 10 mod 10))
          (String (digit (n mod 10)) EmptyString))).

(** The value scaled by 10^4 and rounded, from the exact mantissa and
    exponent of the double. *)
Definition scaled4 (m : positive) (e : Z) : Z :=
  if 0 <=? e then Zpos m * 2 ^ e * 10000
  else round_half_even (Zpos m * 10000) (2 ^ (- e)).

(** ["{:+2.4f}".format(x)]: the sign always, four digits after the
    point, the decimal expansion correctly rounded; the minimal width 2
    never pads, every output being longer. *)
Definition format_plus_4f (x : float) : string :=
  match Prim2SF x with
  | S754_nan => "+nan"
  | S754_infinity s => sign_str s +:+ "inf"
  | S754_zero s => sign_str s +:+ "0.0000"
  | S754_finite s m e =>
      let n := scaled4 m e in
      sign_str s +:+ Py.str (Z.to_N (n / 10000)) +:+ "." +:+ frac4 (n mod 10000)
  end.

End Float64.

(** ** Gate parameters and [assign_name] *)

(** What the module observes of a gate parameter: the outcome of each test
    and conversion that [assign_name] and [export_to_qpic] apply to it. *)
Record Param : Type := {
  is_tuple : bool;                    (* isinstance(p, tuple) *)
  extract_variables : option string;  (* repr(p.extract_variables()), when p has the attribute *)
  as_FixedVariable : option float;    (* float(p), when isinstance(p, FixedVariable) *)
  is_Number : bool;                   (* isinstance(p, numbers.Number) *)
  is_None : bool;                     (* p is None *)
  repr : option string;               (* repr(p); None when it raises *)
  to_str : string                     (* str(p) *)
}.

(** The loop over the divisors, lines 28 to 33. *)
Fixpoint pi_fraction (v : float) (divisors : list N) : option string :=
  match divisors with
  | [] => None
  | i :: rest =>
      if Float64.isclose (PrimFloat.abs v)
           (PrimFloat.div Float64.pi (Float64.of_N i)) Float64.atol_1e_4
      then Some (if PrimFloat.ltb v PrimFloat.zero
                 then "-\pi/" +:+ Py.str i
                 else "+\pi/" +:+ Py.str i)
      else pi_fraction v rest
  end.

Definition assign_name (parameter : Param) : string :=
  if is_tuple parameter then "\theta"
  else match extract_variables parameter with
  | Some vars => Py.rstrip "]" (Py.lstrip "[" vars)
  | None =>
  match as_FixedVariable parameter with
  | Some v =>
      match pi_fraction v [1; 2; 3; 4]%N with
      | Some label => label
      | None => Float64.format_plus_4f v
      end
  | None =>
  match repr parameter with
  | Some r => r
  | None => to_str parameter
  end end end.

(** A [FixedVariable] holding the double [v]. *)
Definition fixed (v : float) : Param :=
  {| is_tuple := false; extract_variables := None; as_FixedVariable := Some v;
     is_Number := true; is_None := false; repr := None; to_str := EmptyString |}.

(** ** Circuits *)

(** A Pauli string: the items of the dictionary from qubit to operator
    letter, in iteration order. *)
Definition PauliString : Type := list (N * string).

(** What the exporter observes of a gate. *)
Record QGate : Type := {
  name : string;
  target : list N;
  is_controlled : bool;
  control : list N;
  parameter : option Param;          (* None: the gate has no such attribute *)
  angle_axis : option (Py.result string);
                                     (* None: the gate has no attribute angle; otherwise
                                        the outcome of reading axis_to_string[axis] *)
  make_generator : bool -> option (list PauliString);
                                     (* make_generator(include_controls).paulistrings *)
  generator : option (list PauliString)
                                     (* generator.paulistrings; None: no such attribute *)
}.

Record QCircuit : Type := {
  qubits : list N;
  gates : list QGate
}.

(** The values [group_together] and [qubit_names] may take. *)
Inductive GroupTogether : Type :=
| GroupFalse
| GroupTrue
| GroupStr (directive : string).

Inductive QubitNames : Type :=
| NamesNone
| NamesStr (s : string)
| NamesList (l : list string).

Record Options : Type := {
  always_use_generators : bool;
  decompose_control_generators : bool;
  group_together : GroupTogether;
  qubit_names : QubitNames;
  mark_parametrized_gates : bool
}.

Definition default_options : Options :=
  {| always_use_generators := true;
     decompose_control_generators := false;
     group_together := GroupFalse;
     qubit_names := NamesNone;
     mark_parametrized_gates := true |}.

(** ** The document builder, lines 44 to 119 of [export_to_qpic] *)

Definition header : string :=
  "COLOR tq 0.03137254901960784 0.1607843137254902 0.23921568627450981" +:+ Py.nl
  +:+ "COLOR guo 0.988 0.141 0.757" +:+ Py.nl.

(** Lines 50 and 51, and the test of line 86: the directive, when
    [group_together] has an [upper] method. *)
Definition group_directive (g : GroupTogether) : option string :=
  match g with
  | GroupFalse => None
  | GroupTrue => Some "TOUCH"
  | GroupStr s => Some s
  end.

(** Lines 54 to 57. *)
Definition display_names (qs : list N) (qn : QubitNames) : list string :=
  match qn with
  | NamesNone => map Py.str qs
  | NamesStr s => map (fun _ => s) qs
  | NamesList l => l
  end.

(** The dictionary [names] once the loop of lines 58 to 61 has run. *)
Definition wire_names (qs : list N) : gmap N string :=
  fold_left (fun names q => <[q := "a" +:+ Py.str q]> names) qs ∅.

(** The text the loop of lines 58 to 61 appends, from position [i] on. *)
Fixpoint wire_lines (i : nat) (qs : list N) (dnames : list string)
  : Py.result (list string) :=
  match qs with
  | [] => Py.Ok []
  | q :: qs' =>
      match dnames !! i with
      | None => Py.Raise Py.IndexError
      | Some d =>
          rest ← wire_lines (S i) qs' dnames;
          Py.Ok (("a" +:+ Py.str q +:+ " W " +:+ d +:+ Py.nl) :: rest)
      end
  end.

(** Lines 64 to 68: fill colour and text colour of the boxes of a gate. *)
Definition highlighted (mark : bool) (g : QGate) : bool :=
  match parameter g with
  | Some p => negb (is_Number p) && mark
  | None => false
  end.

Definition colours (mark : bool) (g : QGate) : string * string :=
  if highlighted mark g then ("guo", "black") else ("tq", "white").

(** The format string of lines 73, 81 and 97. *)
Definition box (gcol tcol : string) (qubit : N) (op : string) : string :=
  " a" +:+ Py.str qubit +:+ " P:fill=" +:+ gcol +:+ "  \textcolor{" +:+ tcol
  +:+ "}{" +:+ op +:+ "} ".

(** [for c in g.control: result += names[c] + " "]. *)
Fixpoint control_refs (names : gmap N string) (cs : list N) : Py.result string :=
  match cs with
  | [] => Py.Ok EmptyString
  | c :: cs' =>
      match names !! c with
      | None => Py.Raise Py.KeyError
      | Some nm =>
          rest ← control_refs names cs';
          Py.Ok (nm +:+ " " +:+ rest)
      end
  end.

Definition controls_if (b : bool) (names : gmap N string) (g : QGate)
  : Py.result string :=
  if b then control_refs names (control g) else Py.Ok EmptyString.

(** Lines 72 to 76. *)
Fixpoint hadamard_boxes (names : gmap N string) (gcol tcol : string)
    (g : QGate) (targets : list N) : Py.result string :=
  match targets with
  | [] => Py.Ok EmptyString
  | t :: ts =>
      cs ← controls_if (is_controlled g) names g;
      rest ← hadamard_boxes names gcol tcol g ts;
      Py.Ok (box gcol tcol t "H" +:+ cs +:+ rest)
  end.

(** The boxes of one Pauli string, lines 80 and 81. *)
Definition pauli_boxes (gcol tcol : string) (ps : PauliString) : string :=
  Py.join (map (fun kv => box gcol tcol (fst kv) (Py.upper (snd kv))) ps).

(** The loops over the Pauli strings, lines 78 to 85 and 94 to 101;
    [with_controls] is the test of line 82, respectively of line 98. *)
Fixpoint term_lines (names : gmap N string) (gcol tcol : string)
    (with_controls : bool) (g : QGate) (terms : list PauliString)
  : Py.result string :=
  match terms with
  | [] => Py.Ok EmptyString
  | ps :: rest =>
      match ps with
      | [] => term_lines names gcol tcol with_controls g rest
      | _ :: _ =>
          cs ← controls_if with_controls names g;
          more ← term_lines names gcol tcol with_controls g rest;
          Py.Ok (pauli_boxes gcol tcol ps +:+ cs +:+ Py.nl +:+ more)
      end
  end.

(** Lines 86 to 89. *)
Definition touch_refs (qs : list N) : string :=
  Py.join (map (fun t => "a" +:+ Py.str t +:+ " ") qs).

Definition grouping_line (qs : list N) (directive : string) : string :=
  touch_refs qs +:+ Py.upper directive +:+ Py.nl.

Definition grouping (qs : list N) (gt : GroupTogether) : string :=
  match group_directive gt with
  | Some d => grouping_line qs d
  | None => EmptyString
  end.

(** Lines 103 and 104. *)
Fixpoint target_refs (names : gmap N string) (ts : list N) : Py.result string :=
  match ts with
  | [] => Py.Ok EmptyString
  | t :: ts' =>
      match names !! t with
      | None => Py.Raise Py.KeyError
      | Some nm =>
          rest ← target_refs names ts';
          Py.Ok (nm +:+ " " +:+ rest)
      end
  end.

Definition width (label : string) : string :=
  Py.str (25 + 5 * N.of_nat (Py.len label)).

(** Lines 105 to 113. *)
Definition generic_label (g : QGate) : Py.result string :=
  match angle_axis g with
  | Some read_axis =>
      axis ← read_axis;
      match parameter g with
      | None => Py.Raise Py.AttributeError
      | Some p =>
          Py.Ok (" G $R_{" +:+ axis +:+ "}(" +:+ assign_name p +:+ ")$ width="
                 +:+ width (assign_name p) +:+ " ")
      end
  | None =>
      match parameter g with
      | Some p =>
          if is_None p then Py.Ok (name g +:+ " ")
          else Py.Ok (" G $" +:+ name g +:+ "(" +:+ assign_name p +:+ ")$ width="
                      +:+ width (assign_name p) +:+ " ")
      | None => Py.Ok (name g +:+ " ")
      end
  end.

Definition is_hadamard (g : QGate) : bool :=
  String.eqb (name g) "H" || String.eqb (name g) "h".

Definition needs_generator (g : QGate) : bool :=
  let n := Py.upper (name g) in
  String.eqb n (Py.upper "Exp-Pauli") || String.eqb n (Py.upper "GenRot").

(** The body of the loop over the gates, lines 64 to 119: the text that
    one gate appends to the document. *)
Definition render_gate (o : Options) (qs : list N) (names : gmap N string)
    (g : QGate) : Py.result string :=
  let '(gcol, tcol) := colours (mark_parametrized_gates o) g in
  body ←
    (if is_hadamard g then
       hadamard_boxes names gcol tcol g (target g)
     else
       match (if always_use_generators o
              then make_generator g (decompose_control_generators o)
              else None) with
       | Some terms =>
           ls ← term_lines names gcol tcol
                  (is_controlled g && negb (decompose_control_generators o)) g terms;
           Py.Ok (ls +:+ grouping qs (group_together o))
       | None =>
           if needs_generator g then
             match generator g with
             | None => Py.Raise Py.AttributeError
             | Some terms => term_lines names gcol tcol (is_controlled g) g terms
             end
           else
             ts ← target_refs names (target g);
             lbl ← generic_label g;
             cs ← controls_if (is_controlled g) names g;
             Py.Ok (ts +:+ lbl +:+ cs)
       end);
  Py.Ok (body +:+ Py.nl).

Fixpoint render_gates (o : Options) (qs : list N) (names : gmap N string)
    (gs : list QGate) : Py.result (list string) :=
  match gs with
  | [] => Py.Ok []
  | g :: gs' =>
      t ← render_gate o qs names g;
      rest ← render_gates o qs names gs';
      Py.Ok (t :: rest)
  end.

(** The string [result] when line 120 is reached. *)
Definition qpic_document (circuit : QCircuit) (o : Options) : Py.result string :=
  let qs := qubits circuit in
  ws ← wire_lines 0 qs (display_names qs (qubit_names o));
  gs ← render_gates o qs (wire_names qs) (gates circuit);
  Py.Ok (header +:+ Py.join ws +:+ Py.join gs).

(** ** Files and processes *)

(** What the two entry points do to the outside world. *)
Inductive event : Type :=
| Compiled                                        (* Compiler(trotterized=True)(circuit) *)
| Built (filename filepath : option string)       (* a call of export_to_qpic *)
| Written (path content : string)                 (* open(path, "w") and write *)
| Called (argv : list string) (cwd : option string).  (* subprocess.call *)

Record World : Type := {
  files : gmap string string;
  trace : list event
}.

Definition log (e : event) (w : World) : World :=
  {| files := files w; trace := trace w ++ [e] |}.

(** Opening a file for writing truncates it; the whole text becomes its
    content. The directory is taken to exist and to be writable: a
    failure of [open], like one of the renderer process, lies outside
    this model of the world. *)
Definition write_file (path content : string) (w : World) : World :=
  log (Written path content)
    {| files := <[path := content]> (files w); trace := trace w |}.

Definition read_file (path : string) (w : World) : option string :=
  files w !! path.

(** Lines 122 to 126: the path that [export_to_qpic] writes to. *)
Definition target_path (filename : string) (filepath : option string) : string :=
  let filenamex :=
    if Py.endswith filename ".qpic" then filename else filename +:+ ".qpic" in
  match filepath with
  | Some dir => dir +:+ "/" +:+ filenamex
  | None => filenamex
  end.

Definition export_to_qpic (circuit : QCircuit) (filename filepath : option string)
    (o : Options) (w : World) : Py.result string * World :=
  let w := log (Built filename filepath) w in
  match qpic_document circuit o with
  | Py.Raise e => (Py.Raise e, w)
  | Py.Ok result =>
      match filename with
      | Some f => (Py.Ok result, write_file (target_path f filepath) result w)
      | None => (Py.Ok result, w)
      end
  end.

(** Lines 165 to 171. *)
Definition split_extension (filename : string) : string * string :=
  let filename_tmp := Py.split "." filename in
  if (length filename_tmp =? 1)%nat then (filename, ".pdf")
  else (Py.join (Py.init filename_tmp), Py.last_item filename_tmp).

(** Lines 173 to 179. *)
Definition split_directory (filename fname : string) : string * option string :=
  let tmp := Py.split "/" fname in
  let fname := Py.last_item tmp in
  if (1 <? length tmp)%nat then
    let fpath := Py.join (map (fun x => x +:+ "/") (Py.init tmp)) in
    match filename with
    | String "/" _ => (fname, Some ("/" +:+ fpath))
    | _ => (fname, Some fpath)
    end
  else (fname, None).

Definition no_qpic_message : string :=
  "You need qpic in order to export circuits to pictures ---" +:+ Py.nl
  +:+ " pip install qpic".

Definition no_filetype_message (filename : string) : string :=
  "export_to: No filetype given " +:+ filename +:+ ", expected something like "
  +:+ filename +:+ ".pdf".

(** [export_to]; [system_has_qpic] is the module's global of line 18 and
    [Compiler] the trotterizing compiler of the surrounding framework. *)
Definition export_to (system_has_qpic : bool)
    (Compiler : QCircuit -> Py.result QCircuit)
    (circuit : QCircuit) (filename : string) (o : Options) (w : World)
  : Py.result unit * World :=
  if negb system_has_qpic then (Py.Raise (Py.Exception no_qpic_message), w)
  else if negb (Py.contains "." filename) then
    (Py.Raise (Py.Exception (no_filetype_message filename)), w)
  else
    let '(fname, ftype) := split_extension filename in
    let '(fname, fpath) := split_directory filename fname in
    let w := log Compiled w in
    match Compiler circuit with
    | Py.Raise e => (Py.Raise e, w)
    | Py.Ok compiled =>
        match export_to_qpic compiled (Some fname) fpath o w with
        | (Py.Raise e, w) => (Py.Raise e, w)
        | (Py.Ok _, w) =>
            if negb (String.eqb ftype "qpic") then
              (Py.Ok tt, log (Called ["qpic"; fname +:+ ".qpic"; "-f"; ftype] fpath) w)
            else (Py.Ok tt, w)
        end
    end.

(** ** Notions used to state the properties *)

(** The tolerance test of line 29 for the divisor [i]. *)
Definition close_to_pi_over (v : float) (i : N) : bool :=
  Float64.isclose (PrimFloat.abs v)
    (PrimFloat.div Float64.pi (Float64.of_N i)) Float64.atol_1e_4.

Definition pi_label (v : float) (i : N) : string :=
  Float64.sign_str (PrimFloat.ltb v PrimFloat.zero) +:+ "\pi/" +:+ Py.str i.

(** The text of a Hadamard gate: a box per target, each followed by the
    control references [cs]. *)
Definition hadamard_text (gcol tcol cs : string) (targets : list N) : string :=
  Py.join (map (fun t => box gcol tcol t "H" +:+ cs) targets) +:+ Py.nl.

(** The line of one Pauli string, with the control references [cs]. *)
Definition term_line (gcol tcol cs : string) (ps : PauliString) : string :=
  pauli_boxes gcol tcol ps +:+ cs +:+ Py.nl.

Definition non_identity (ps : PauliString) : bool :=
  match ps with
  | [] => false
  | _ :: _ => true
  end.

(** The references to the control qubits of [g], when [b] holds. *)
Definition control_text (b : bool) (g : QGate) : string :=
  if b then touch_refs (control g) else EmptyString.

(** A gate can be drawn in the circuit over [qs] when the wires of its
    controls exist. *)
Definition controls_declared (qs : list N) (g : QGate) : Prop :=
  Forall (fun c => c ∈ qs) (control g).

Definition set_always_use_generators (b : bool) (o : Options) : Options :=
  {| always_use_generators := b;
     decompose_control_generators := decompose_control_generators o;
     group_together := group_together o;
     qubit_names := qubit_names o;
     mark_parametrized_gates := mark_parametrized_gates o |}.

(** The gate [g] with the identity terms of its generators left out. *)
Definition without_identity_terms (g : QGate) : QGate :=
  {| name := name g;
     target := target g;
     is_controlled := is_controlled g;
     control := control g;
     parameter := parameter g;
     angle_axis := angle_axis g;
     make_generator := fun b => option_map (List.filter non_identity) (make_generator g b);
     generator := option_map (List.filter non_identity) (generator g) |}.



(** The calls of the renderer among the events. *)
Fixpoint renderer_calls (evs : list event) : list (list string * option string) :=
  match evs with
  | [] => []
  | Called argv cwd :: rest => (argv, cwd) :: renderer_calls rest
  | _ :: rest => renderer_calls rest
  end.

(** The base name and the directory that [export_to] hands on, and the
    extension it asks the renderer for. *)
Definition base_name (filename : string) : string :=
  fst (split_directory filename (fst (split_extension filename))).

Definition directory (filename : string) : option string :=
  snd (split_directory filename (fst (split_extension filename))).

Definition extension (filename : string) : string :=
  snd (split_extension filename).

(** ** The specification's wording, where the code departs from it *)

(** The tolerance test as the specification words it: a purely absolute
    tolerance, |a - b| <= 1e-4. *)
Definition spec_within_abs_tol (a b : float) : bool :=
  PrimFloat.leb (PrimFloat.abs (PrimFloat.sub a b)) Float64.atol_1e_4.

Definition spec_close_to_pi_over (v : float) (i : N) : bool :=
  spec_within_abs_tol (PrimFloat.abs v) (PrimFloat.div Float64.pi (Float64.of_N i)).

(** The label the specification prescribes for a fixed numeric value. *)
Definition spec_fixed_label (v : float) : string :=
  match List.find (spec_close_to_pi_over v) [1; 2; 3; 4]%N with
  | Some i => pi_label v i
  | None => Float64.format_plus_4f v
  end.

(** The text that a grouping line after every term would give: each line
    of a non-identity term followed by the grouping line. *)
Definition spec_grouped_terms (gcol tcol cs : string) (qs : list N)
    (directive : string) (terms : list PauliString) : string :=
  Py.join (map (fun ps => term_line gcol tcol cs ps +:+ grouping_line qs directive)
             (List.filter non_identity terms))
  +:+ Py.nl.

(** A Hadamard box as the specification colours it when the gate has no
    symbolic parameter: primary colour, black text. *)
Definition spec_plain_hadamard_text (cs : string) (targets : list N) : string :=
  hadamard_text "tq" "black" cs targets.

(** The base name as the specification words it: the segments before the
    last dot, put together without the dots. *)
Definition spec_base_name (filename : string) : string :=
  Py.join (Py.init (Py.split "." filename)).

(** ** Concrete inputs *)

(** 3.14171, 0.123456, pi/2 and -pi/3 as doubles. *)
Definition ex_3_14171 : float := 0x1.92238da3c2118p+1%float.
Definition ex_0_123456 : float := 0x1.f9acffa7eb6bfp-4%float.
Definition ex_half_pi : float := 0x1.921fb54442d18p+0%float.
Definition ex_minus_third_pi : float := (-0x1.0c152382d7365p+0)%float.

(** Concrete gates and circuits. *)
Definition ex_gate (nm : string) (targets : list N) (controlled : bool)
    (controls : list N) (terms : option (list PauliString)) : QGate :=
  {| name := nm; target := targets; is_controlled := controlled;
     control := controls; parameter := None; angle_axis := None;
     make_generator := fun _ => terms; generator := terms |}.

(** A plain Hadamard gate on qubit 0. *)
Definition ex_hadamard : QGate := ex_gate "H" [0%N] false [] None.

(** A Hadamard gate on qubits 0 and 1 controlled by qubit 2. *)
Definition ex_controlled_hadamard : QGate := ex_gate "H" [0%N; 1%N] true [2%N] None.

(** A gate generated by X(0) + 1 + Z(1): two Pauli strings and the
    identity between them. *)
Definition ex_two_terms : QGate :=
  ex_gate "Exp-Pauli" [0%N; 1%N] false []
    (Some [[(0%N, "x")]; []; [(1%N, "z")]]).

Definition ex_group_options : Options :=
  {| always_use_generators := true;
     decompose_control_generators := false;
     group_together := GroupTrue;
     qubit_names := NamesNone;
     mark_parametrized_gates := true |}.

(** A circuit of three qubits, 0, 1 and 2, with the gates above. *)
Definition ex_circuit : QCircuit :=
  {| qubits := [0; 1; 2]%N;
     gates := [ex_controlled_hadamard; ex_two_terms] |}.

(** The circuit above with every wire named q, and its document. *)
Definition ex_named_options : Options :=
  {| always_use_generators := true;
     decompose_control_generators := false;
     group_together := GroupFalse;
     qubit_names := NamesStr "q";
     mark_parametrized_gates := true |}.

Definition ex_document : string :=
  Eval vm_compute in
    match qpic_document ex_circuit ex_named_options with
    | Py.Ok doc => doc
    | Py.Raise _ => EmptyString
    end.

Definition empty_world : World := {| files := ∅; trace := [] |}.

(** The framework's compiler, taken here to hand the circuit on as it is. *)
Definition ex_compiler (c : QCircuit) : Py.result QCircuit := Py.Ok c.

(** ** Further notions: options, circuits and well-formed gates *)

Definition set_group_together (gt : GroupTogether) (o : Options) : Options :=
  {| always_use_generators := always_use_generators o;
     decompose_control_generators := decompose_control_generators o;
     group_together := gt;
     qubit_names := qubit_names o;
     mark_parametrized_gates := mark_parametrized_gates o |}.

Definition set_decompose_control_generators (b : bool) (o : Options) : Options :=
  {| always_use_generators := always_use_generators o;
     decompose_control_generators := b;
     group_together := group_together o;
     qubit_names := qubit_names o;
     mark_parametrized_gates := mark_parametrized_gates o |}.

Definition set_qubit_names (qn : QubitNames) (o : Options) : Options :=
  {| always_use_generators := always_use_generators o;
     decompose_control_generators := decompose_control_generators o;
     group_together := group_together o;
     qubit_names := qn;
     mark_parametrized_gates := mark_parametrized_gates o |}.

(** The circuit [c] with the gates [gs] appended. *)
Definition add_gates (c : QCircuit) (gs : list QGate) : QCircuit :=
  {| qubits := qubits c; gates := (gates c ++ gs)%list |}.

(** The targets and the controls of [g] are qubits of the circuit. *)
Definition gate_declared (qs : list N) (g : QGate) : Prop :=
  Forall (fun t => t ∈ qs) (target g) /\ Forall (fun c => c ∈ qs) (control g).

(** The attributes that the exporter reads without testing for them are
    there: the axis and its entry in axis_to_string and the parameter of a
    gate with an angle, and the generator of a gate named Exp-Pauli or
    GenRot. *)
Definition gate_complete (g : QGate) : Prop :=
  (forall read_axis, angle_axis g = Some read_axis ->
     (exists axis : string, read_axis = Py.Ok axis) /\ parameter g <> None)
  /\ (needs_generator g = true -> generator g <> None).

(** The label of lines 105 to 113 for a gate that has the attributes it
    needs. *)
Definition label_text (g : QGate) : string :=
  match generic_label g with
  | Py.Ok l => l
  | Py.Raise _ => EmptyString
  end.

(** The gate takes the last branch of the loop body, lines 103 to 117. *)
Definition drawn_generically (o : Options) (g : QGate) : Prop :=
  is_hadamard g = false
  /\ (if always_use_generators o
      then make_generator g (decompose_control_generators o) else None) = None
  /\ needs_generator g = false.

(** The part of the file name before its last dot, dots removed: the
    first component of [split_extension]. *)
Definition dotless_name (filename : string) : string :=
  fst (split_extension filename).

Definition is_absolute (filename : string) : bool :=
  match filename with
  | String "/" _ => true
  | _ => false
  end.

(** [s[0]] and [s[-1]], when there are such. *)
Definition first_char (s : string) : option ascii :=
  match s with
  | EmptyString => None
  | String a _ => Some a
  end.

Fixpoint last_char (s : string) : option ascii :=
  match s with
  | EmptyString => None
  | String a EmptyString => Some a
  | String _ s' => last_char s'
  end.

(** A parameter with free variables whose list prints as [vars]. *)
Definition symbolic (vars : string) : Param :=
  {| is_tuple := false; extract_variables := Some vars; as_FixedVariable := None;
     is_Number := false; is_None := false; repr := None; to_str := EmptyString |}.

(** A rotation about x on qubit 1, controlled by qubit 0, by the angle
    of the variable θ (a character of two bytes). *)
Definition ex_rotation : QGate :=
  {| name := "Rx"; target := [1%N]; is_controlled := true; control := [0%N];
     parameter := Some (symbolic "[θ]"); angle_axis := Some (Py.Ok "x");
     make_generator := fun _ => None; generator := None |}.

(** A compiler that fails, and a world in which a file is there already. *)
Definition ex_failing_compiler (c : QCircuit) : Py.result QCircuit :=
  Py.Raise (Py.Exception "cannot compile").

Definition ex_world : World :=
  {| files := {["circuit.qpic" := "old"]}; trace := [] |}.

(** * Properties *)

(** ** The label formatter *)

Lemma pi_fraction_find (v : float) (ds : list N) :
  pi_fraction v ds = option_map (pi_label v) (List.find (close_to_pi_over v) ds).
Proof.
  induction ds as [|i ds IH]; simpl; [reflexivity|].
  fold (close_to_pi_over v i).
  destruct (close_to_pi_over v i); [|exact IH].
  unfold pi_label. simpl. destruct (PrimFloat.ltb v PrimFloat.zero); reflexivity.
Qed.

Lemma frac4_length (n : Z) : String.length (Float64.frac4 n) = 4%nat.
Proof. reflexivity. Qed.

(** [round_half_even] is within one half of the exact quotient. *)
Lemma round_half_even_nearest (num den : Z) :
  0 < den ->
  2 * Z.abs (Float64.round_half_even num den * den - num) <= den.
Proof.
  intros Hden. unfold Float64.round_half_even.
  pose proof (Z.div_mod num den ltac:(lia)) as Hdm.
  pose proof (Z.mod_pos_bound num den Hden) as Hr.
  set (q := num / den) in *. set (r := num mod den) in *.
  destruct (den <? 2 * r) eqn:Hlt; simpl.
  - apply Z.ltb_lt in Hlt. nia.
  - apply Z.ltb_ge in Hlt.
    destruct (2 * r =? den) eqn:Heq; simpl.
    + apply Z.eqb_eq in Heq. destruct (Z.odd q); nia.
    + nia.
Qed.

(** The decimal label of a finite non-zero double: a sign, the integer
    part, a point and exactly four digits. *)
Lemma format_plus_4f_shape (v : float) (s : bool) (m : positive) (e : Z) :
  Prim2SF v = S754_finite s m e ->
  exists int_part frac_part : string,
    Float64.format_plus_4f v
      = Float64.sign_str s +:+ int_part +:+ "." +:+ frac_part
    /\ String.length frac_part = 4%nat.
Proof.
  intros Hv. unfold Float64.format_plus_4f. rewrite Hv.
  eexists _, _. split; [reflexivity | apply frac4_length].
Qed.

(** C3, as the code has it. For a parameter that is a FixedVariable (no
    tuple, no free-variable accessor) holding the double v, assign_name
    takes the first divisor i of 1, 2, 3, 4 for which numpy.isclose holds,
    that is | |v| - pi/i | <= 1e-4 + 1e-5 * (pi/i), the relative tolerance
    keeping its default; it returns the sign of v followed by \pi/i when
    there is one, and otherwise v as a decimal with sign and exactly four
    digits after the point. So 0.123456 gives +0.1235, pi/2 gives +\pi/2
    and -pi/3 gives -\pi/3. *)
Theorem assign_name_fixed_variable (p : Param) (v : float) :
  is_tuple p = false ->
  extract_variables p = None ->
  as_FixedVariable p = Some v ->
  assign_name p
    = match List.find (close_to_pi_over v) [1; 2; 3; 4]%N with
      | Some i => pi_label v i
      | None => Float64.format_plus_4f v
      end
  /\ (forall i : N,
        close_to_pi_over v i
        = PrimFloat.leb
            (PrimFloat.abs
               (PrimFloat.sub (PrimFloat.abs v)
                  (PrimFloat.div Float64.pi (Float64.of_N i))))
            (PrimFloat.add Float64.atol_1e_4
               (PrimFloat.mul Float64.rtol_default
                  (PrimFloat.abs (PrimFloat.div Float64.pi (Float64.of_N i))))))
  /\ (forall s m e, Prim2SF v = S754_finite s m e ->
       List.find (close_to_pi_over v) [1; 2; 3; 4]%N = None ->
       exists int_part frac_part : string,
         assign_name p = Float64.sign_str s +:+ int_part +:+ "." +:+ frac_part
         /\ String.length frac_part = 4%nat)
  /\ assign_name (fixed ex_0_123456) = "+0.1235"
  /\ assign_name (fixed ex_half_pi) = "+\pi/2"
  /\ assign_name (fixed ex_minus_third_pi) = "-\pi/3".
Proof.
  intros Ht Hx Hf.
  assert (Hmain : assign_name p
    = match List.find (close_to_pi_over v) [1; 2; 3; 4]%N with
      | Some i => pi_label v i
      | None => Float64.format_plus_4f v
      end).
  { unfold assign_name. rewrite Ht, Hx, Hf, pi_fraction_find.
    destruct (List.find (close_to_pi_over v) [1; 2; 3; 4]%N); reflexivity. }
  split; [exact Hmain|]. split; [reflexivity|]. split.
  - intros s m e Hv Hnone. rewrite Hmain, Hnone.
    apply (format_plus_4f_shape v s m e Hv).
  - repeat split; vm_compute; reflexivity.
Qed.

Lemma assign_name_fixed_variable_witness :
  assign_name (fixed ex_0_123456) = "+0.1235".
Proof.
  destruct (assign_name_fixed_variable (fixed ex_0_123456)
              ex_0_123456 eq_refl eq_refl eq_refl) as [H _].
  rewrite H. vm_compute. reflexivity.
Defined.

(** C3, as worded: with a purely absolute tolerance of 1e-4 the value
    3.14171 is close to no pi/i (it is 1.17e-4 away from pi) and would be
    labelled +3.1417, while assign_name labels it +\pi/1. *)
Lemma assign_name_abs_tolerance_counterexample :
  spec_close_to_pi_over ex_3_14171 1 = false
  /\ spec_fixed_label ex_3_14171 = "+3.1417"
  /\ assign_name (fixed ex_3_14171) = "+\pi/1"
  /\ assign_name (fixed ex_3_14171)
       <> spec_fixed_label ex_3_14171.
Proof.
  repeat split; try (vm_compute; reflexivity).
  vm_compute. discriminate.
Qed.

(** ** Strings and wire names *)

Lemma append_nil_l (s : string) : EmptyString +:+ s = s.
Proof. reflexivity. Qed.

Lemma append_cons (a : ascii) (s t : string) :
  String a s +:+ t = String a (s +:+ t).
Proof. reflexivity. Qed.

Lemma append_empty_r (s : string) : s +:+ EmptyString = s.
Proof.
  induction s as [|a s IH]; [reflexivity|].
  now rewrite append_cons, IH.
Qed.

Lemma append_assoc (s1 s2 s3 : string) : (s1 +:+ s2) +:+ s3 = s1 +:+ (s2 +:+ s3).
Proof.
  induction s1 as [|a s1 IH]; [reflexivity|].
  now rewrite !append_cons, IH.
Qed.

Lemma join_nil : Py.join [] = EmptyString.
Proof. reflexivity. Qed.

Lemma join_cons (x : string) (l : list string) : Py.join (x :: l) = x +:+ Py.join l.
Proof.
  unfold Py.join. destruct l as [|y l]; simpl.
  - now rewrite append_empty_r.
  - now rewrite append_nil_l.
Qed.

Lemma wire_names_fold (qs : list N) (m : gmap N string) (q : N) :
  fold_left (fun names q => <[q := "a" +:+ Py.str q]> names) qs m !! q
  = if decide (q ∈ qs) then Some ("a" +:+ Py.str q) else m !! q.
Proof.
  revert m. induction qs as [|x qs IH]; intros m; simpl.
  - destruct (decide (q ∈ [])) as [H|_]; [inversion H | reflexivity].
  - rewrite IH. destruct (decide (q ∈ qs)) as [Hin|Hnin].
    + rewrite decide_True by (right; exact Hin). reflexivity.
    + destruct (decide (x = q)) as [->|Hne].
      * rewrite lookup_insert_eq. rewrite decide_True by left. reflexivity.
      * rewrite lookup_insert_ne by exact Hne.
        rewrite decide_False; [reflexivity|].
        intros H. apply elem_of_cons in H as [H|H]; congruence.
Qed.

Lemma wire_names_lookup (qs : list N) (q : N) :
  wire_names qs !! q = if decide (q ∈ qs) then Some ("a" +:+ Py.str q) else None.
Proof. unfold wire_names. rewrite wire_names_fold, lookup_empty. reflexivity. Qed.

Lemma control_refs_declared (qs cs : list N) :
  Forall (fun c => c ∈ qs) cs ->
  control_refs (wire_names qs) cs = Py.Ok (touch_refs cs).
Proof.
  induction 1 as [|c cs Hc _ IH]; simpl; [reflexivity|].
  rewrite wire_names_lookup, decide_True by exact Hc.
  rewrite IH. simpl. unfold touch_refs. rewrite fmap_cons, join_cons.
  now rewrite !append_assoc.
Qed.

Lemma control_refs_ok (qs cs : list N) (txt : string) :
  control_refs (wire_names qs) cs = Py.Ok txt ->
  Forall (fun c => c ∈ qs) cs /\ txt = touch_refs cs.
Proof.
  revert txt. induction cs as [|c cs IH]; intros txt; simpl.
  - intros [= <-]. split; [constructor | reflexivity].
  - rewrite wire_names_lookup. destruct (decide (c ∈ qs)) as [Hc|Hc]; [|discriminate].
    destruct (control_refs (wire_names qs) cs) as [rest|e] eqn:Hrest; simpl; [|discriminate].
    intros [= <-]. destruct (IH rest eq_refl) as [Hall ->].
    split; [constructor; assumption|].
    unfold touch_refs. rewrite fmap_cons, join_cons. now rewrite !append_assoc.
Qed.

Lemma controls_if_declared (b : bool) (qs : list N) (g : QGate) :
  (b = true -> controls_declared qs g) ->
  controls_if b (wire_names qs) g = Py.Ok (control_text b g).
Proof.
  intros H. destruct b; simpl; [|reflexivity].
  apply control_refs_declared, H. reflexivity.
Qed.

(** ** The lines of a gate *)

Lemma term_lines_filter (names : gmap N string) (gcol tcol : string) (wc : bool)
    (g : QGate) (terms : list PauliString) :
  term_lines names gcol tcol wc g terms
  = term_lines names gcol tcol wc g (List.filter non_identity terms).
Proof.
  induction terms as [|ps terms IH]; [reflexivity|].
  destruct ps as [|kv ps]; simpl; [exact IH|].
  now rewrite IH.
Qed.

Lemma term_lines_ok (names : gmap N string) (gcol tcol cs : string) (wc : bool)
    (g : QGate) (terms : list PauliString) :
  controls_if wc names g = Py.Ok cs ->
  term_lines names gcol tcol wc g terms
  = Py.Ok (Py.join (map (term_line gcol tcol cs) (List.filter non_identity terms))).
Proof.
  intros Hcs. induction terms as [|ps terms IH]; [reflexivity|].
  destruct ps as [|kv ps]; [exact IH|].
  cbn [term_lines List.filter non_identity map].
  rewrite Hcs, IH, join_cons. unfold term_line.
  cbn [mbind result_bind Py.bind]. now rewrite !append_assoc.
Qed.

Lemma term_lines_identity_only (names : gmap N string) (gcol tcol : string)
    (wc : bool) (g : QGate) (terms : list PauliString) :
  List.filter non_identity terms = [] ->
  term_lines names gcol tcol wc g terms = Py.Ok EmptyString.
Proof. intros H. now rewrite term_lines_filter, H. Qed.

Lemma hadamard_boxes_ok (names : gmap N string) (gcol tcol cs : string)
    (g : QGate) (ts : list N) :
  controls_if (is_controlled g) names g = Py.Ok cs ->
  hadamard_boxes names gcol tcol g ts
  = Py.Ok (Py.join (map (fun t => box gcol tcol t "H" +:+ cs) ts)).
Proof.
  intros Hcs. induction ts as [|t ts IH]; [reflexivity|].
  simpl. rewrite Hcs, IH. simpl. now rewrite join_cons, append_assoc.
Qed.

(** The loops read the controls of the gate and nothing else of it. *)
Lemma term_lines_gate (names : gmap N string) (gcol tcol : string) (wc : bool)
    (g g' : QGate) (terms : list PauliString) :
  control g = control g' ->
  term_lines names gcol tcol wc g terms = term_lines names gcol tcol wc g' terms.
Proof.
  intros Hc. induction terms as [|ps terms IH]; [reflexivity|].
  destruct ps as [|kv ps]; simpl; [exact IH|].
  unfold controls_if. now rewrite Hc, IH.
Qed.

Lemma hadamard_boxes_gate (names : gmap N string) (gcol tcol : string)
    (g g' : QGate) (ts : list N) :
  control g = control g' ->
  is_controlled g = is_controlled g' ->
  hadamard_boxes names gcol tcol g ts = hadamard_boxes names gcol tcol g' ts.
Proof.
  intros Hc Hi. induction ts as [|t ts IH]; [reflexivity|].
  simpl. unfold controls_if. now rewrite Hc, Hi, IH.
Qed.

(** A Hadamard gate takes the first branch of the loop body, whatever
    the options and the other attributes of the gate. *)
Lemma render_hadamard (o : Options) (qs : list N) (names : gmap N string)
    (g : QGate) :
  is_hadamard g = true ->
  render_gate o qs names g
  = Py.bind
      (hadamard_boxes names (fst (colours (mark_parametrized_gates o) g))
         (snd (colours (mark_parametrized_gates o) g)) g (target g))
      (fun body => Py.Ok (body +:+ Py.nl)).
Proof.
  intros Hh. unfold render_gate.
  destruct (colours (mark_parametrized_gates o) g) as [gcol tcol].
  rewrite Hh. reflexivity.
Qed.

Lemma render_hadamard_declared (o : Options) (qs : list N) (g : QGate) :
  is_hadamard g = true ->
  (is_controlled g = true -> controls_declared qs g) ->
  render_gate o qs (wire_names qs) g
  = Py.Ok (hadamard_text (fst (colours (mark_parametrized_gates o) g))
             (snd (colours (mark_parametrized_gates o) g))
             (control_text (is_controlled g) g) (target g)).
Proof.
  intros Hh Hc. rewrite render_hadamard by exact Hh.
  rewrite (hadamard_boxes_ok _ _ _ (control_text (is_controlled g) g))
    by (apply controls_if_declared; exact Hc).
  reflexivity.
Qed.

(** C9. An empty Pauli string is skipped, in the branch of the generators
    that are enabled (lines 78 to 85) and in the branch of the gates named
    Exp-Pauli or GenRot (lines 94 to 101) alike: the loop over the terms
    gives the same text with an identity term at any place as without it,
    so a gate renders exactly as the gate whose generators have their
    identity terms removed, and a generator of identity terms alone adds
    no text. *)
Theorem identity_terms_are_skipped (o : Options) (qs : list N)
    (names : gmap N string) (g : QGate) :
  (forall gcol tcol wc (before after : list PauliString),
      term_lines names gcol tcol wc g (before ++ [] :: after)
      = term_lines names gcol tcol wc g (before ++ after))
  /\ (forall gcol tcol wc (terms : list PauliString),
        Forall (fun ps => ps = []) terms ->
        term_lines names gcol tcol wc g terms = Py.Ok EmptyString)
  /\ render_gate o qs names g = render_gate o qs names (without_identity_terms g).
Proof.
  split; [|split].
  - intros gcol tcol wc before after.
    rewrite term_lines_filter, (term_lines_filter _ _ _ _ _ (before ++ after)).
    now rewrite !List.filter_app.
  - intros gcol tcol wc terms Hall. apply term_lines_identity_only.
    induction Hall as [|ps terms -> _ IH]; [reflexivity | exact IH].
  - unfold render_gate, colours, highlighted, is_hadamard, needs_generator,
      generic_label, controls_if.
    cbn [without_identity_terms name target is_controlled control parameter
         angle_axis make_generator generator].
    destruct (match parameter g with
              | Some p => negb (is_Number p) && mark_parametrized_gates o
              | None => false
              end);
      (destruct (String.eqb (name g) "H" || String.eqb (name g) "h");
       [apply (f_equal (fun r => Py.bind r _)), hadamard_boxes_gate;
        reflexivity|]);
      (destruct (always_use_generators o);
       [destruct (make_generator g (decompose_control_generators o)) as [terms|]|]);
      cbn [option_map];
      try (rewrite <- term_lines_filter;
           rewrite (term_lines_gate _ _ _ _ g (without_identity_terms g))
             by reflexivity;
           reflexivity);
      (destruct (String.eqb (Py.upper (name g)) (Py.upper "Exp-Pauli")
                 || String.eqb (Py.upper (name g)) (Py.upper "GenRot"));
       [destruct (generator g) as [terms|]; cbn [option_map];
        [rewrite <- term_lines_filter;
         rewrite (term_lines_gate _ _ _ _ g (without_identity_terms g))
           by reflexivity|]; reflexivity
       | reflexivity]).
Qed.

Lemma is_hadamard_name (g : QGate) :
  is_hadamard g = true <-> name g = "H" \/ name g = "h".
Proof.
  unfold is_hadamard. rewrite orb_true_iff, !String.eqb_eq. reflexivity.
Qed.

(** C2, as the code has it. The boxes of a gate named H or h are filled
    with the highlight colour guo and carry black text exactly when the
    gate has a parameter that is not a number and mark_parametrized_gates
    is set; otherwise they are filled with the primary colour tq and carry
    white text. *)
Theorem hadamard_box_colours (o : Options) (qs : list N) (g : QGate) :
  name g = "H" \/ name g = "h" ->
  (is_controlled g = true -> controls_declared qs g) ->
  render_gate o qs (wire_names qs) g
  = Py.Ok
      (if match parameter g with
          | Some p => negb (is_Number p)
          | None => false
          end && mark_parametrized_gates o
       then hadamard_text "guo" "black" (control_text (is_controlled g) g) (target g)
       else hadamard_text "tq" "white" (control_text (is_controlled g) g) (target g)).
Proof.
  intros Hn Hc. apply is_hadamard_name in Hn.
  rewrite (render_hadamard_declared o qs g Hn Hc).
  unfold colours, highlighted.
  destruct (parameter g) as [p|]; simpl; [|reflexivity].
  destruct (negb (is_Number p) && mark_parametrized_gates o); reflexivity.
Qed.

Lemma hadamard_box_colours_witness :
  render_gate default_options [0%N] (wire_names [0%N]) ex_hadamard
  = Py.Ok (hadamard_text "tq" "white" EmptyString [0%N]).
Proof.
  apply (hadamard_box_colours default_options [0%N] ex_hadamard).
  - left. reflexivity.
  - intros H. discriminate H.
Defined.

(** C2, as worded: a plain Hadamard gate would get black text on the
    primary colour, while the code writes white text. *)
Lemma hadamard_text_colour_counterexample :
  render_gate default_options [0%N] (wire_names [0%N]) ex_hadamard
  = Py.Ok (" a0 P:fill=tq  \textcolor{white}{H} " +:+ Py.nl)
  /\ spec_plain_hadamard_text EmptyString [0%N]
     = " a0 P:fill=tq  \textcolor{black}{H} " +:+ Py.nl
  /\ render_gate default_options [0%N] (wire_names [0%N]) ex_hadamard
     <> Py.Ok (spec_plain_hadamard_text EmptyString [0%N]).
Proof.
  split; [vm_compute; reflexivity|].
  split; [vm_compute; reflexivity|].
  vm_compute. discriminate.
Qed.

Lemma box_then (gcol tcol op cs : string) (t : N) :
  box gcol tcol t op +:+ cs
  = " a" +:+ Py.str t +:+ " P:fill=" +:+ gcol +:+ "  \textcolor{" +:+ tcol
    +:+ "}{" +:+ op +:+ "} " +:+ cs.
Proof. unfold box. now rewrite !append_assoc. Qed.

(** C4. A gate named H or h is drawn by the special case for every value
    of always_use_generators: its text is, for each target t in turn, the
    filled box a<t> P:fill=<colour>  \textcolor{<text colour>}{H}
    followed by the references to the control wires when the gate is
    controlled, and then a newline. The text depends on the name, the
    targets, the controls and the parameter of the gate and on
    mark_parametrized_gates only, so neither the generators of the gate,
    nor its angle, nor any other option reaches it. *)
Theorem hadamard_special_case (o : Options) (qs : list N) (g : QGate) :
  name g = "H" \/ name g = "h" ->
  (forall (names : gmap N string) (o' : Options) (g' : QGate),
      mark_parametrized_gates o' = mark_parametrized_gates o ->
      name g' = name g -> target g' = target g ->
      is_controlled g' = is_controlled g -> control g' = control g ->
      parameter g' = parameter g ->
      render_gate o' qs names g' = render_gate o qs names g)
  /\ ((is_controlled g = true -> controls_declared qs g) ->
      forall b : bool,
        render_gate (set_always_use_generators b o) qs (wire_names qs) g
        = Py.Ok
            (Py.join
               (map (fun t =>
                       " a" +:+ Py.str t +:+ " P:fill="
                       +:+ (if match parameter g with
                               | Some p => negb (is_Number p)
                               | None => false
                               end && mark_parametrized_gates o
                            then "guo" else "tq")
                       +:+ "  \textcolor{"
                       +:+ (if match parameter g with
                               | Some p => negb (is_Number p)
                               | None => false
                               end && mark_parametrized_gates o
                            then "black" else "white")
                       +:+ "}{H} "
                       +:+ (if is_controlled g
                            then Py.join
                                   (map (fun c => "a" +:+ Py.str c +:+ " ")
                                      (control g))
                            else EmptyString))
                  (target g))
             +:+ Py.nl)).
Proof.
  intros Hn. apply is_hadamard_name in Hn. split.
  - intros names o' g' Hm Hname Ht Hic Hc Hp.
    assert (Hn' : is_hadamard g' = true).
    { unfold is_hadamard in *. now rewrite Hname. }
    rewrite (render_hadamard o' qs names g' Hn'), (render_hadamard o qs names g Hn).
    unfold colours, highlighted. rewrite Hm, Hp, Ht.
    now rewrite (hadamard_boxes_gate names _ _ g' g) by assumption.
  - intros Hc b.
    rewrite (render_hadamard_declared (set_always_use_generators b o) qs g Hn Hc).
    unfold hadamard_text, colours, highlighted, control_text, touch_refs.
    cbn [set_always_use_generators mark_parametrized_gates].
    apply (f_equal (fun l => Py.Ok (Py.join l +:+ Py.nl))).
    apply List.map_ext. intros t. rewrite box_then.
    destruct (parameter g) as [p|]; [|reflexivity].
    destruct (negb (is_Number p) && mark_parametrized_gates o); reflexivity.
Qed.

Lemma hadamard_special_case_witness :
  render_gate (set_always_use_generators false default_options) [0; 1; 2]%N
    (wire_names [0; 1; 2]%N) ex_controlled_hadamard
  = Py.Ok (" a0 P:fill=tq  \textcolor{white}{H} a2 "
           +:+ " a1 P:fill=tq  \textcolor{white}{H} a2 " +:+ Py.nl)
  /\ render_gate (set_always_use_generators true default_options) [0; 1; 2]%N
       (wire_names [0; 1; 2]%N) ex_controlled_hadamard
     = Py.Ok (" a0 P:fill=tq  \textcolor{white}{H} a2 "
              +:+ " a1 P:fill=tq  \textcolor{white}{H} a2 " +:+ Py.nl).
Proof.
  assert (Hc : is_controlled ex_controlled_hadamard = true ->
               controls_declared [0; 1; 2]%N ex_controlled_hadamard).
  { intros _. constructor; [|constructor]. right. right. left. }
  split.
  - exact (proj2 (hadamard_special_case default_options [0; 1; 2]%N
                    ex_controlled_hadamard (or_introl eq_refl)) Hc false).
  - exact (proj2 (hadamard_special_case default_options [0; 1; 2]%N
                    ex_controlled_hadamard (or_introl eq_refl)) Hc true).
Defined.

(** ** Grouping lines *)

Lemma render_enabled_generator (o : Options) (qs : list N) (g : QGate)
    (terms : list PauliString) :
  is_hadamard g = false ->
  always_use_generators o = true ->
  make_generator g (decompose_control_generators o) = Some terms ->
  (is_controlled g = true -> controls_declared qs g) ->
  render_gate o qs (wire_names qs) g
  = Py.Ok
      (Py.join
         (map (term_line (fst (colours (mark_parametrized_gates o) g))
                 (snd (colours (mark_parametrized_gates o) g))
                 (control_text
                    (is_controlled g && negb (decompose_control_generators o)) g))
            (List.filter non_identity terms))
       +:+ grouping qs (group_together o) +:+ Py.nl).
Proof.
  intros Hh Ha Hg Hc. unfold render_gate.
  destruct (colours (mark_parametrized_gates o) g) as [gcol tcol].
  rewrite Hh, Ha, Hg.
  rewrite (term_lines_ok _ gcol tcol
             (control_text (is_controlled g && negb (decompose_control_generators o)) g)).
  - cbn [mbind result_bind Py.bind fst snd]. now rewrite append_assoc.
  - apply controls_if_declared. intros Hb.
    apply andb_true_iff in Hb as [Hb _]. exact (Hc Hb).
Qed.

Lemma render_required_generator (o : Options) (qs : list N) (g : QGate)
    (terms : list PauliString) :
  is_hadamard g = false ->
  (if always_use_generators o
   then make_generator g (decompose_control_generators o) else None) = None ->
  needs_generator g = true ->
  generator g = Some terms ->
  (is_controlled g = true -> controls_declared qs g) ->
  render_gate o qs (wire_names qs) g
  = Py.Ok
      (Py.join
         (map (term_line (fst (colours (mark_parametrized_gates o) g))
                 (snd (colours (mark_parametrized_gates o) g))
                 (control_text (is_controlled g) g))
            (List.filter non_identity terms))
       +:+ Py.nl).
Proof.
  intros Hh Ha Hn Hg Hc. unfold render_gate.
  destruct (colours (mark_parametrized_gates o) g) as [gcol tcol].
  rewrite Hh, Ha, Hn, Hg.
  rewrite (term_lines_ok _ gcol tcol (control_text (is_controlled g) g))
    by (apply controls_if_declared; exact Hc).
  reflexivity.
Qed.

(** C1, as the code has it. With group_together=True, a gate drawn from
    its enabled generator (always_use_generators set, make_generator not
    None) gets one line per non-empty Pauli string and then, once for the
    whole gate, one grouping line that lists every qubit of the circuit
    and ends with TOUCH: the grouping line follows the last term of the
    gate, not every term. A gate drawn from its generator because it is
    named Exp-Pauli or GenRot gets the lines of its terms and no grouping
    line. *)
Theorem grouping_line_once_per_gate (o : Options) (qs : list N) (g : QGate)
    (terms : list PauliString) :
  group_together o = GroupTrue ->
  is_hadamard g = false ->
  (is_controlled g = true -> controls_declared qs g) ->
  (always_use_generators o = true ->
   make_generator g (decompose_control_generators o) = Some terms ->
   render_gate o qs (wire_names qs) g
   = Py.Ok
       (Py.join
          (map (term_line (fst (colours (mark_parametrized_gates o) g))
                  (snd (colours (mark_parametrized_gates o) g))
                  (control_text
                     (is_controlled g && negb (decompose_control_generators o)) g))
             (List.filter non_identity terms))
        +:+ (touch_refs qs +:+ "TOUCH" +:+ Py.nl) +:+ Py.nl))
  /\ ((if always_use_generators o
       then make_generator g (decompose_control_generators o) else None) = None ->
      needs_generator g = true ->
      generator g = Some terms ->
      render_gate o qs (wire_names qs) g
      = Py.Ok
          (Py.join
             (map (term_line (fst (colours (mark_parametrized_gates o) g))
                     (snd (colours (mark_parametrized_gates o) g))
                     (control_text (is_controlled g) g))
                (List.filter non_identity terms))
           +:+ Py.nl)).
Proof.
  intros Hgt Hh Hc. split.
  - intros Ha Hg.
    rewrite (render_enabled_generator o qs g terms Hh Ha Hg Hc).
    unfold grouping. rewrite Hgt. reflexivity.
  - intros Ha Hn Hg.
    apply (render_required_generator o qs g terms Hh Ha Hn Hg Hc).
Qed.

Lemma grouping_line_once_per_gate_witness :
  render_gate ex_group_options [0; 1]%N (wire_names [0; 1]%N) ex_two_terms
  = Py.Ok (" a0 P:fill=tq  \textcolor{white}{X} " +:+ Py.nl
           +:+ " a1 P:fill=tq  \textcolor{white}{Z} " +:+ Py.nl
           +:+ "a0 a1 TOUCH" +:+ Py.nl +:+ Py.nl).
Proof.
  apply (proj1 (grouping_line_once_per_gate ex_group_options [0; 1]%N ex_two_terms
                  [[(0%N, "x")]; []; [(1%N, "z")]] eq_refl eq_refl
                  (fun H => False_ind _ (Bool.diff_false_true H)))
           eq_refl eq_refl).
Defined.

(** C1, as worded: were every non-empty term followed by a grouping line,
    the gate generated by X(0) + 1 + Z(1) would give four lines, a grouping
    line after each of its two terms. The code gives three: in the text
    of the gate the line after the first term is the second term. *)
Lemma grouping_line_per_term_counterexample :
  render_gate ex_group_options [0; 1]%N (wire_names [0; 1]%N) ex_two_terms
  <> Py.Ok (spec_grouped_terms "tq" "white" EmptyString [0; 1]%N "TOUCH"
              [[(0%N, "x")]; []; [(1%N, "z")]])
  /\ (exists txt : string,
        render_gate ex_group_options [0; 1]%N (wire_names [0; 1]%N) ex_two_terms
        = Py.Ok txt
        /\ Py.split (ascii_of_nat 10) txt
           = [" a0 P:fill=tq  \textcolor{white}{X} ";
              " a1 P:fill=tq  \textcolor{white}{Z} ";
              "a0 a1 TOUCH"; EmptyString; EmptyString])
  /\ Py.split (ascii_of_nat 10)
       (spec_grouped_terms "tq" "white" EmptyString [0; 1]%N "TOUCH"
          [[(0%N, "x")]; []; [(1%N, "z")]])
     = [" a0 P:fill=tq  \textcolor{white}{X} "; "a0 a1 TOUCH";
        " a1 P:fill=tq  \textcolor{white}{Z} "; "a0 a1 TOUCH";
        EmptyString; EmptyString].
Proof.
  split; [vm_compute; discriminate|].
  split; [eexists; split; vm_compute; reflexivity|].
  vm_compute. reflexivity.
Qed.

(** ** Wire declarations *)






(** ** Splitting file names *)

Lemma contains_append (c : ascii) (s t : string) :
  Py.contains c (s +:+ t) = Py.contains c s || Py.contains c t.
Proof.
  induction s as [|a s IH]; [reflexivity|].
  rewrite append_cons. simpl. now rewrite IH, orb_assoc.
Qed.

Lemma contains_join (c : ascii) (l : list string) :
  Forall (fun seg => Py.contains c seg = false) l ->
  Py.contains c (Py.join l) = false.
Proof.
  induction 1 as [|seg l Hseg _ IH]; [reflexivity|].
  now rewrite join_cons, contains_append, Hseg, IH.
Qed.

Lemma split_not_nil (c : ascii) (s : string) : Py.split c s <> [].
Proof.
  destruct s as [|a s]; simpl; [discriminate|].
  destruct (Ascii.eqb a c); [discriminate|].
  destruct (Py.split c s); discriminate.
Qed.

(** No segment holds the separator. *)
Lemma split_no_separator (c : ascii) (s : string) :
  Forall (fun seg => Py.contains c seg = false) (Py.split c s).
Proof.
  induction s as [|a s IH]; simpl.
  - repeat constructor.
  - destruct (Ascii.eqb a c) eqn:Hac.
    + constructor; [reflexivity | exact IH].
    + destruct (Py.split c s) as [|seg segs]; [repeat constructor; simpl; now rewrite Hac|].
      inversion IH as [|? ? Hseg Hsegs]; subst.
      constructor; [simpl; now rewrite Hac, Hseg | exact Hsegs].
Qed.

(** A segment holds no character that the string does not hold. *)
Lemma split_segments_within (d c : ascii) (s : string) :
  Py.contains d s = false ->
  Forall (fun seg => Py.contains d seg = false) (Py.split c s).
Proof.
  induction s as [|a s IH]; simpl; intros Hd.
  - repeat constructor.
  - apply orb_false_iff in Hd as [Had Hd]. specialize (IH Hd).
    destruct (Ascii.eqb a c).
    + constructor; [reflexivity | exact IH].
    + destruct (Py.split c s) as [|seg segs]; [repeat constructor; simpl; now rewrite Had|].
      inversion IH as [|? ? Hseg Hsegs]; subst.
      constructor; [simpl; now rewrite Had, Hseg | exact Hsegs].
Qed.

Lemma split_without_separator (c : ascii) (s : string) :
  Py.contains c s = false -> Py.split c s = [s].
Proof.
  induction s as [|a s IH]; simpl; [reflexivity|]. intros H.
  apply orb_false_iff in H as [Hac H]. now rewrite Hac, (IH H).
Qed.

Lemma split_with_separator (c : ascii) (s : string) :
  Py.contains c s = true -> (2 <= length (Py.split c s))%nat.
Proof.
  induction s as [|a s IH]; simpl; [discriminate|]. intros H.
  destruct (Ascii.eqb a c); simpl in *.
  - pose proof (split_not_nil c s). destruct (Py.split c s); [congruence | simpl; lia].
  - specialize (IH H). destruct (Py.split c s); simpl in *; lia.
Qed.

(** Joining the segments with the separator gives the string back. *)
Lemma concat_split (c : ascii) (s : string) :
  String.concat (String c EmptyString) (Py.split c s) = s.
Proof.
  induction s as [|a s IH]; simpl; [reflexivity|].
  destruct (Ascii.eqb a c) eqn:Hac.
  - apply Ascii.eqb_eq in Hac as ->.
    pose proof (split_not_nil c s) as Hne.
    destruct (Py.split c s) as [|seg segs]; [congruence|].
    cbn [String.concat] in *. rewrite append_nil_l, append_cons, append_nil_l.
    now rewrite IH.
  - pose proof (split_not_nil c s) as Hne.
    destruct (Py.split c s) as [|seg segs]; [congruence|].
    destruct segs as [|seg' segs]; cbn [String.concat] in *.
    + now rewrite IH.
    + rewrite append_cons. now rewrite IH.
Qed.

Lemma concat_snoc (sep x : string) (l : list string) :
  l <> [] ->
  String.concat sep (l ++ [x]) = String.concat sep l +:+ sep +:+ x.
Proof.
  induction l as [|y l IH]; [congruence|]. intros _.
  destruct l as [|z l]; [reflexivity|].
  change (String.concat sep ((y :: z :: l) ++ [x]))
    with (y +:+ sep +:+ String.concat sep ((z :: l) ++ [x])).
  rewrite IH by discriminate.
  change (String.concat sep (y :: z :: l))
    with (y +:+ sep +:+ String.concat sep (z :: l)).
  now rewrite !append_assoc.
Qed.

Lemma init_last (l : list string) :
  l <> [] -> l = (Py.init l ++ [Py.last_item l])%list.
Proof. intros H. apply app_removelast_last, H. Qed.

Lemma init_not_nil (l : list string) :
  (2 <= length l)%nat -> Py.init l <> [].
Proof.
  destruct l as [|x [|y l]]; simpl; intros H; try lia. discriminate.
Qed.

Lemma Forall_init (P : string -> Prop) (l : list string) :
  Forall P l -> Forall P (Py.init l).
Proof.
  induction 1 as [|x l Hx Hl IH]; [constructor|].
  destruct l as [|y l]; [constructor|].
  change (Py.init (x :: y :: l)) with (x :: Py.init (y :: l)).
  constructor; assumption.
Qed.

Lemma Forall_last_item (P : string -> Prop) (l : list string) :
  l <> [] -> Forall P l -> P (Py.last_item l).
Proof.
  intros Hne Hall. rewrite (init_last l Hne) in Hall.
  apply Forall_app in Hall as [_ Hlast]. now inversion Hlast.
Qed.

Lemma contains_substring (c : ascii) (s : string) (n m : nat) :
  Py.contains c (String.substring n m s) = true -> Py.contains c s = true.
Proof.
  revert n m. induction s as [|a s IH]; intros n m.
  - destruct n, m; simpl; trivial.
  - destruct n as [|n].
    + destruct m as [|m]; simpl; [discriminate|].
      intros H. apply orb_true_iff in H as [H|H].
      * now rewrite H.
      * rewrite (IH 0%nat m H). apply orb_true_r.
    + simpl. intros H. rewrite (IH n m H). apply orb_true_r.
Qed.

Lemma endswith_without_dot (s : string) :
  Py.contains "." s = false -> Py.endswith s ".qpic" = false.
Proof.
  intros Hdot. unfold Py.endswith.
  destruct (_ <=? _)%nat; [simpl | reflexivity].
  destruct (String.eqb _ ".qpic") eqn:Heq; [|reflexivity].
  apply String.eqb_eq in Heq.
  assert (H : Py.contains "." s = true).
  { eapply contains_substring. rewrite Heq. reflexivity. }
  congruence.
Qed.

Lemma split_extension_with_dot (f : string) :
  Py.contains "." f = true ->
  split_extension f
  = (Py.join (Py.init (Py.split "." f)), Py.last_item (Py.split "." f)).
Proof.
  intros Hdot. unfold split_extension.
  pose proof (split_with_separator "." f Hdot) as Hlen.
  destruct (length (Py.split "." f) =? 1)%nat eqn:Hone; [|reflexivity].
  apply Nat.eqb_eq in Hone. lia.
Qed.

Lemma split_directory_base (f stem : string) :
  fst (split_directory f stem) = Py.last_item (Py.split "/" stem).
Proof.
  unfold split_directory. destruct (1 <? length (Py.split "/" stem))%nat; [|reflexivity].
  destruct f as [|a f]; [reflexivity|].
  destruct a as [[] [] [] [] [] [] [] []]; reflexivity.
Qed.

(** ** The entry point [export_to] *)

(** What a call of [export_to] that gets through does, step by step. *)
Lemma export_to_runs (Compiler : QCircuit -> Py.result QCircuit)
    (c c' : QCircuit) (f doc : string) (o : Options) (w : World) :
  Py.contains "." f = true ->
  Compiler c = Py.Ok c' ->
  qpic_document c' o = Py.Ok doc ->
  export_to true Compiler c f o w
  = (Py.Ok tt,
     {| files := <[target_path (base_name f) (directory f) := doc]> (files w);
        trace :=
          trace w
          ++ [Compiled; Built (Some (base_name f)) (directory f);
              Written (target_path (base_name f) (directory f)) doc]
          ++ (if String.eqb (extension f) "qpic" then []
              else [Called ["qpic"; base_name f +:+ ".qpic"; "-f"; extension f]
                      (directory f)]) |}).
Proof.
  intros Hdot Hc Hdoc. unfold export_to, base_name, directory, extension.
  rewrite Hdot. cbn [negb].
  destruct (split_extension f) as [stem ftype]. cbn [fst snd].
  destruct (split_directory f stem) as [base dir]. cbn [fst snd].
  rewrite Hc. unfold export_to_qpic. rewrite Hdoc.
  unfold write_file, log. cbn [files trace].
  destruct (String.eqb ftype "qpic"); cbn [negb files trace];
    rewrite <- ?app_assoc; reflexivity.
Qed.

(** Whatever the outcome, the renderer is called at most once, at the
    very end of a call that gets through, and never for the extension
    qpic. *)
Lemma export_to_calls (h : bool) (Compiler : QCircuit -> Py.result QCircuit)
    (c : QCircuit) (f : string) (o : Options) (w : World) :
  exists evs : list event,
    trace (snd (export_to h Compiler c f o w)) = (trace w ++ evs)%list
    /\ renderer_calls evs
       = match fst (export_to h Compiler c f o w) with
         | Py.Ok _ =>
             if String.eqb (extension f) "qpic" then []
             else [(["qpic"; base_name f +:+ ".qpic"; "-f"; extension f], directory f)]
         | Py.Raise _ => []
         end.
Proof.
  unfold export_to, base_name, directory, extension.
  destruct h; cbn [negb]; [|exists []; now rewrite app_nil_r].
  destruct (Py.contains "." f); cbn [negb]; [|exists []; now rewrite app_nil_r].
  destruct (split_extension f) as [stem ftype]. cbn [fst snd].
  destruct (split_directory f stem) as [base dir]. cbn [fst snd].
  destruct (Compiler c) as [c'|e]; [|exists [Compiled]; split; reflexivity].
  unfold export_to_qpic.
  destruct (qpic_document c' o) as [doc|e];
    [|exists [Compiled; Built (Some base) dir]; split;
      [cbn; now rewrite <- app_assoc | reflexivity]].
  destruct (String.eqb ftype "qpic"); cbn [negb fst snd].
  - exists [Compiled; Built (Some base) dir; Written (target_path base dir) doc].
    split; [cbn; now rewrite <- !app_assoc | reflexivity].
  - exists [Compiled; Built (Some base) dir; Written (target_path base dir) doc;
            Called ["qpic"; base +:+ ".qpic"; "-f"; ftype] dir].
    split; [cbn; now rewrite <- !app_assoc | reflexivity].
Qed.

Lemma export_to_returns (h : bool) (Compiler : QCircuit -> Py.result QCircuit)
    (c : QCircuit) (f : string) (o : Options) (w : World) :
  fst (export_to h Compiler c f o w) = Py.Ok tt ->
  h = true /\ Py.contains "." f = true
  /\ exists (c' : QCircuit) (doc : string),
       Compiler c = Py.Ok c' /\ qpic_document c' o = Py.Ok doc.
Proof.
  unfold export_to. destruct h; cbn [negb]; [|discriminate].
  destruct (Py.contains "." f); cbn [negb]; [|discriminate].
  destruct (split_extension f) as [stem ftype].
  destruct (split_directory f stem) as [base dir].
  destruct (Compiler c) as [c'|e]; [|discriminate].
  unfold export_to_qpic.
  destruct (qpic_document c' o) as [doc|e] eqn:Hdoc; [|discriminate].
  intros _. repeat split. exists c', doc. split; [reflexivity | exact Hdoc].
Qed.

Lemma base_name_without_dot (f : string) :
  Py.contains "." f = true -> Py.contains "." (base_name f) = false.
Proof.
  intros Hdot. unfold base_name.
  rewrite split_directory_base, (split_extension_with_dot f Hdot). cbn [fst].
  apply Forall_last_item; [apply split_not_nil|].
  apply split_segments_within, contains_join, Forall_init, split_no_separator.
Qed.

(** C6, as the code has it. A call of export_to whose file name has the
    extension qpic never calls the renderer, whatever its outcome. A call
    with another extension that gets through (the renderer is on the
    path, the file name has a dot, the compiler and the document builder
    return) calls it exactly once, as its last step: with the arguments
    qpic, the name of the intermediate document (the base name followed
    by .qpic), -f and the extension, and with the output directory as
    working directory, the directory in which the document was written
    just before. A call that raises has not called it. *)
Theorem renderer_called_once_unless_qpic (h : bool)
    (Compiler : QCircuit -> Py.result QCircuit)
    (c : QCircuit) (f : string) (o : Options) (w : World) :
  (forall (c' : QCircuit) (doc : string),
      h = true ->
      Py.contains "." f = true ->
      Compiler c = Py.Ok c' ->
      qpic_document c' o = Py.Ok doc ->
      extension f <> "qpic" ->
      fst (export_to h Compiler c f o w) = Py.Ok tt
      /\ trace (snd (export_to h Compiler c f o w))
         = (trace w
            ++ [Compiled; Built (Some (base_name f)) (directory f);
                Written (match directory f with
                         | Some dir => dir +:+ "/" +:+ base_name f +:+ ".qpic"
                         | None => base_name f +:+ ".qpic"
                         end) doc;
                Called ["qpic"; base_name f +:+ ".qpic"; "-f"; extension f]
                  (directory f)])%list)
  /\ exists evs : list event,
    trace (snd (export_to h Compiler c f o w)) = (trace w ++ evs)%list
    /\ (extension f = "qpic" -> renderer_calls evs = [])
    /\ (extension f <> "qpic" ->
        fst (export_to h Compiler c f o w) = Py.Ok tt ->
        renderer_calls evs
        = [(["qpic"; base_name f +:+ ".qpic"; "-f"; extension f], directory f)]
        /\ exists doc : string,
             evs = [Compiled; Built (Some (base_name f)) (directory f);
                    Written (target_path (base_name f) (directory f)) doc;
                    Called ["qpic"; base_name f +:+ ".qpic"; "-f"; extension f]
                      (directory f)]
             /\ target_path (base_name f) (directory f)
                = match directory f with
                  | Some dir => dir +:+ "/" +:+ base_name f +:+ ".qpic"
                  | None => base_name f +:+ ".qpic"
                  end)
    /\ (forall e, fst (export_to h Compiler c f o w) = Py.Raise e ->
        renderer_calls evs = []).
Proof.
  split.
  { intros c' doc -> Hdot Hc Hdoc Hext.
    rewrite (export_to_runs Compiler c c' f doc o w Hdot Hc Hdoc).
    cbn [fst snd trace]. split; [reflexivity|].
    apply String.eqb_neq in Hext. rewrite Hext.
    unfold target_path.
    rewrite (endswith_without_dot _ (base_name_without_dot f Hdot)).
    destruct (directory f); reflexivity. }
  destruct (export_to_calls h Compiler c f o w) as (evs & Htrace & Hcalls).
  exists evs. split; [exact Htrace|]. split; [|split].
  - intros Hext. rewrite Hcalls, Hext.
    destruct (fst (export_to h Compiler c f o w)); reflexivity.
  - intros Hext Hok. rewrite Hok in Hcalls.
    apply String.eqb_neq in Hext. rewrite Hext in Hcalls.
    split; [exact Hcalls|].
    destruct (export_to_returns h Compiler c f o w Hok)
      as (-> & Hdot & c' & doc & Hc & Hdoc).
    assert (Hrun := export_to_runs Compiler c).
    pose proof (split_extension_with_dot f Hdot) as Hse.
    rewrite (Hrun c' f doc o w Hdot Hc Hdoc) in Htrace. cbn [snd trace] in Htrace.
    rewrite Hext in Htrace. apply app_inv_head in Htrace. subst evs.
    exists doc. split; [reflexivity|].
    assert (Hbase : Py.contains "." (base_name f) = false).
    { unfold base_name. rewrite split_directory_base, Hse. cbn [fst].
      apply Forall_last_item; [apply split_not_nil|].
      apply split_segments_within, contains_join, Forall_init, split_no_separator. }
    unfold target_path. rewrite (endswith_without_dot _ Hbase).
    destruct (directory f); reflexivity.
  - intros e He. rewrite Hcalls, He. reflexivity.
Qed.

Lemma renderer_called_once_unless_qpic_witness :
  fst (export_to true ex_compiler ex_circuit "circuit.pdf" ex_named_options
         empty_world) = Py.Ok tt
  /\ trace (snd (export_to true ex_compiler ex_circuit "circuit.pdf"
                   ex_named_options empty_world))
     = [Compiled; Built (Some "circuit") None;
        Written "circuit.qpic" ex_document;
        Called ["qpic"; "circuit.qpic"; "-f"; "pdf"] None].
Proof.
  assert (Hdoc : qpic_document ex_circuit ex_named_options = Py.Ok ex_document)
    by (vm_compute; reflexivity).
  assert (Hext : extension "circuit.pdf" <> "qpic")
    by (vm_compute; discriminate).
  exact (proj1 (renderer_called_once_unless_qpic true ex_compiler ex_circuit
                  "circuit.pdf" ex_named_options empty_world)
           ex_circuit ex_document eq_refl eq_refl eq_refl Hdoc Hext).
Defined.

(** C6, as worded: a call whose file name has the extension pdf, on a
    machine without the renderer, raises at the first test and has not
    called the renderer at all, let alone once. *)
Lemma renderer_absent_counterexample :
  extension "circuit.pdf" = "pdf"
  /\ export_to false ex_compiler ex_circuit "circuit.pdf" default_options
       empty_world
     = (Py.Raise (Py.Exception no_qpic_message), empty_world)
  /\ renderer_calls
       (trace (snd (export_to false ex_compiler ex_circuit "circuit.pdf"
                      default_options empty_world)))
     = []
  /\ renderer_calls
       (trace (snd (export_to false ex_compiler ex_circuit "circuit.pdf"
                      default_options empty_world)))
     <> [(["qpic"; "circuit.qpic"; "-f"; "pdf"], None)].
Proof.
  split; [vm_compute; reflexivity|]. split; [reflexivity|].
  split; [reflexivity|]. simpl. discriminate.
Qed.

(** C7, as the code has it. Without the renderer on the path export_to
    raises the exception that asks for qpic; with the renderer present
    and a file name without a dot it raises the exception that asks for
    a file type. Either is raised at once: nothing is compiled, no
    document is built and no file is written. *)
Theorem export_to_guards (h : bool)
    (Compiler : QCircuit -> Py.result QCircuit)
    (c : QCircuit) (f : string) (o : Options) (w : World) :
  (h = false ->
   export_to h Compiler c f o w = (Py.Raise (Py.Exception no_qpic_message), w))
  /\ (h = true -> Py.contains "." f = false ->
      export_to h Compiler c f o w
      = (Py.Raise (Py.Exception (no_filetype_message f)), w)).
Proof.
  split.
  - intros ->. reflexivity.
  - intros -> Hdot. unfold export_to. rewrite Hdot. reflexivity.
Qed.

(** C7, as worded: without the renderer, a file name without extension
    raises the exception about qpic, not the one about the file type. *)
Lemma usage_error_counterexample :
  Py.contains "." "circuit" = false
  /\ export_to false ex_compiler ex_circuit "circuit" default_options empty_world
     = (Py.Raise (Py.Exception no_qpic_message), empty_world)
  /\ Py.Exception no_qpic_message <> Py.Exception (no_filetype_message "circuit").
Proof.
  split; [reflexivity|]. split; [reflexivity|].
  vm_compute. discriminate.
Qed.

(** C8. With a file name, export_to_qpic writes the document it returns
    as the whole content of the target file, in place of what the file
    held; reading the file back gives that document, and no other file
    changes. The document returned is the same with and without a file
    name, and without a file name no file changes. *)
Theorem written_document_is_returned (c : QCircuit) (f : string)
    (filepath : option string) (o : Options) (w : World) (doc : string)
    (w' : World) :
  export_to_qpic c (Some f) filepath o w = (Py.Ok doc, w') ->
  read_file (target_path f filepath) w' = Some doc
  /\ (forall p : string, p <> target_path f filepath ->
        read_file p w' = read_file p w)
  /\ (forall (filepath' : option string) (w0 : World),
        fst (export_to_qpic c None filepath' o w0) = Py.Ok doc
        /\ files (snd (export_to_qpic c None filepath' o w0)) = files w0)
  /\ (forall (f' : option string) (filepath' : option string) (w0 : World),
        fst (export_to_qpic c f' filepath' o w0) = qpic_document c o).
Proof.
  unfold export_to_qpic. intros H.
  destruct (qpic_document c o) as [d|e] eqn:Hdoc; [|discriminate H].
  injection H as <- <-. unfold read_file, write_file, log. cbn [files].
  split; [apply lookup_insert_eq|]. split; [|split].
  - intros p Hp. now apply lookup_insert_ne.
  - intros filepath' w0. split; reflexivity.
  - intros [f'|] filepath' w0; reflexivity.
Qed.

Lemma written_document_is_returned_witness :
  read_file "out/circuit.qpic"
    (snd (export_to_qpic ex_circuit (Some "circuit") (Some "out")
            ex_named_options empty_world))
  = Some ex_document.
Proof.
  apply (proj1 (written_document_is_returned ex_circuit "circuit" (Some "out")
                  ex_named_options empty_world ex_document
                  (snd (export_to_qpic ex_circuit (Some "circuit") (Some "out")
                          ex_named_options empty_world))
                  eq_refl)).
Defined.

(** C10, as the code has it. For a file name with a dot, the extension is
    what follows the last dot. The segments before the last dot are put
    together without the dots, and the base name handed to the document
    builder is the last component of that string after its last slash:
    the whole string when the file name has no slash. No dot survives in
    the base name, so the intermediate document is the base name followed
    by .qpic; my.circuit.pdf gives mycircuit.qpic. *)
Theorem intermediate_document_name (f : string) :
  Py.contains "." f = true ->
  (f = String.concat "." (Py.init (Py.split "." f)) +:+ "." +:+ extension f
   /\ Py.contains "." (extension f) = false)
  /\ base_name f = Py.last_item (Py.split "/" (Py.join (Py.init (Py.split "." f))))
  /\ (Py.contains "/" f = false ->
      base_name f = Py.join (Py.init (Py.split "." f)))
  /\ Py.contains "." (base_name f) = false
  /\ (forall (Compiler : QCircuit -> Py.result QCircuit) (c c' : QCircuit)
        (o : Options) (w : World) (doc : string),
        Compiler c = Py.Ok c' ->
        qpic_document c' o = Py.Ok doc ->
        exists evs : list event,
          trace (snd (export_to true Compiler c f o w))
          = (trace w
             ++ [Compiled; Built (Some (base_name f)) (directory f);
                 Written (match directory f with
                          | Some dir => dir +:+ "/" +:+ base_name f +:+ ".qpic"
                          | None => base_name f +:+ ".qpic"
                          end) doc]
             ++ evs)%list)
  /\ (base_name "my.circuit.pdf" = "mycircuit"
      /\ extension "my.circuit.pdf" = "pdf"
      /\ target_path (base_name "my.circuit.pdf") (directory "my.circuit.pdf")
         = "mycircuit.qpic").
Proof.
  intros Hdot.
  pose proof (split_extension_with_dot f Hdot) as Hse.
  pose proof (split_with_separator "." f Hdot) as Hlen.
  pose proof (split_not_nil "." f) as Hne.
  pose proof (split_no_separator "." f) as Hsegs.
  assert (Hstem : Py.contains "." (Py.join (Py.init (Py.split "." f))) = false)
    by (apply contains_join, Forall_init, Hsegs).
  assert (Hbase : base_name f
                  = Py.last_item (Py.split "/" (Py.join (Py.init (Py.split "." f))))).
  { unfold base_name. now rewrite split_directory_base, Hse. }
  assert (Hnodot : Py.contains "." (base_name f) = false).
  { rewrite Hbase. apply Forall_last_item; [apply split_not_nil|].
    apply split_segments_within, Hstem. }
  split; [split|split; [|split; [|split; [|split]]]].
  - unfold extension. rewrite Hse. cbn [snd].
    rewrite <- (concat_snoc "." _ _ (init_not_nil _ Hlen)).
    rewrite <- (init_last _ Hne). symmetry. apply concat_split.
  - unfold extension. rewrite Hse. cbn [snd].
    apply (Forall_last_item _ _ Hne Hsegs).
  - exact Hbase.
  - intros Hslash. rewrite Hbase.
    rewrite split_without_separator; [reflexivity|].
    apply contains_join, Forall_init, split_segments_within, Hslash.
  - exact Hnodot.
  - intros Compiler c c' o w doc Hc Hdoc.
    rewrite (export_to_runs Compiler c c' f doc o w Hdot Hc Hdoc). cbn [snd trace].
    exists (if String.eqb (extension f) "qpic" then []
            else [Called ["qpic"; base_name f +:+ ".qpic"; "-f"; extension f]
                    (directory f)]).
    unfold target_path. rewrite (endswith_without_dot _ Hnodot).
    destruct (directory f); reflexivity.
  - repeat split; vm_compute; reflexivity.
Qed.

Lemma intermediate_document_name_witness :
  base_name "a.b.c.png" = Py.join (Py.init (Py.split "." "a.b.c.png"))
  /\ Py.contains "." (base_name "a.b.c.png") = false.
Proof.
  pose proof (intermediate_document_name "a.b.c.png" eq_refl)
    as (_ & _ & Hflat & Hnodot & _).
  split; [apply Hflat; reflexivity | exact Hnodot].
Defined.

(** C10, as worded: for out/my.circuit.pdf the segments before the last
    dot give out/mycircuit once the dots are removed, while the base name
    handed to the document builder is mycircuit, the directory going to
    the builder apart. *)
Lemma base_name_counterexample :
  Py.contains "." "out/my.circuit.pdf" = true
  /\ spec_base_name "out/my.circuit.pdf" = "out/mycircuit"
  /\ base_name "out/my.circuit.pdf" = "mycircuit"
  /\ base_name "out/my.circuit.pdf" <> spec_base_name "out/my.circuit.pdf"
  /\ exists (doc : string) (evs : list event),
       trace (snd (export_to true ex_compiler ex_circuit "out/my.circuit.pdf"
                     default_options empty_world))
       = Compiled :: Built (Some "mycircuit") (Some "out/")
           :: Written "out//mycircuit.qpic" doc :: evs.
Proof.
  split; [reflexivity|]. split; [vm_compute; reflexivity|].
  split; [vm_compute; reflexivity|]. split; [vm_compute; discriminate|].
  eexists _, _. vm_compute. reflexivity.
Qed.

(** * Further properties of the exporter *)

(** ** Options that do not reach the document *)

Lemma render_gates_ext (o o' : Options) (qs : list N) (names : gmap N string)
    (gs : list QGate) :
  (forall g, render_gate o qs names g = render_gate o' qs names g) ->
  render_gates o qs names gs = render_gates o' qs names gs.
Proof.
  intros H. induction gs as [|g gs IH]; [reflexivity|].
  simpl. now rewrite H, IH.
Qed.

Lemma render_gate_without_generators (o o' : Options) (qs : list N)
    (names : gmap N string) (g : QGate) :
  always_use_generators o = false ->
  always_use_generators o' = false ->
  mark_parametrized_gates o' = mark_parametrized_gates o ->
  render_gate o' qs names g = render_gate o qs names g.
Proof.
  intros Ha Ha' Hm. unfold render_gate. now rewrite Ha, Ha', Hm.
Qed.

(** X1. The docstring of export_to calls decompose_control_generators and
    group_together effective only in combination with
    always_use_generators=True. Indeed, with always_use_generators off the
    document is the same for all values of the two options. *)
Theorem generator_options_need_generators (c : QCircuit) (o : Options)
    (b : bool) (gt : GroupTogether) :
  always_use_generators o = false ->
  qpic_document c
    (set_decompose_control_generators b (set_group_together gt o))
  = qpic_document c o.
Proof.
  intros Ha. unfold qpic_document. cbn [qubit_names set_decompose_control_generators
    set_group_together].
  rewrite (render_gates_ext _ o); [reflexivity|].
  intros g. apply render_gate_without_generators; [exact Ha | exact Ha | reflexivity].
Qed.

Lemma generator_options_need_generators_witness :
  qpic_document ex_circuit
    (set_decompose_control_generators true
       (set_group_together (GroupStr "BARRIER")
          (set_always_use_generators false default_options)))
  = qpic_document ex_circuit (set_always_use_generators false default_options).
Proof.
  apply (generator_options_need_generators ex_circuit
           (set_always_use_generators false default_options) true
           (GroupStr "BARRIER") eq_refl).
Defined.

(** ** The grouping directive *)

Lemma upper_char_idempotent (a : ascii) :
  Py.upper_char (Py.upper_char a) = Py.upper_char a.
Proof. destruct a as [[] [] [] [] [] [] [] []]; vm_compute; reflexivity. Qed.

Lemma upper_idempotent (s : string) : Py.upper (Py.upper s) = Py.upper s.
Proof.
  induction s as [|a s IH]; [reflexivity|].
  simpl. now rewrite upper_char_idempotent, IH.
Qed.

Lemma render_gate_grouping (o : Options) (gt gt' : GroupTogether) (qs : list N)
    (names : gmap N string) (g : QGate) :
  grouping qs gt = grouping qs gt' ->
  render_gate (set_group_together gt o) qs names g
  = render_gate (set_group_together gt' o) qs names g.
Proof.
  intros H. unfold render_gate.
  cbn [set_group_together mark_parametrized_gates always_use_generators
       decompose_control_generators group_together].
  now rewrite H.
Qed.

Lemma qpic_document_grouping (c : QCircuit) (o : Options) (gt gt' : GroupTogether) :
  grouping (qubits c) gt = grouping (qubits c) gt' ->
  qpic_document c (set_group_together gt o)
  = qpic_document c (set_group_together gt' o).
Proof.
  intros Hg. unfold qpic_document. cbn [qubit_names set_group_together].
  rewrite (render_gates_ext _ (set_group_together gt' o)); [reflexivity|].
  intros g. apply render_gate_grouping, Hg.
Qed.

(** X2. The directive of group_together is read without regard to case:
    two strings with the same upper-case form give the same document, and
    so do a string and its upper-case form. True stands for TOUCH in any
    spelling. *)
Theorem group_together_ignores_case (c : QCircuit) (o : Options)
    (s s' : string) :
  Py.upper s = Py.upper s' ->
  qpic_document c (set_group_together (GroupStr s) o)
  = qpic_document c (set_group_together (GroupStr s') o)
  /\ qpic_document c (set_group_together (GroupStr (Py.upper s)) o)
     = qpic_document c (set_group_together (GroupStr s) o)
  /\ (Py.upper s = "TOUCH" ->
      qpic_document c (set_group_together (GroupStr s) o)
      = qpic_document c (set_group_together GroupTrue o)).
Proof.
  intros Hs. split; [|split].
  - apply qpic_document_grouping. unfold grouping, grouping_line. simpl.
    now rewrite Hs.
  - apply qpic_document_grouping. unfold grouping, grouping_line. simpl.
    now rewrite upper_idempotent.
  - intros Ht. apply qpic_document_grouping. unfold grouping, grouping_line. simpl.
    now rewrite Ht.
Qed.

Lemma group_together_ignores_case_witness :
  qpic_document ex_circuit (set_group_together (GroupStr "Touch") default_options)
  = qpic_document ex_circuit (set_group_together (GroupStr "touch") default_options).
Proof.
  apply (proj1 (group_together_ignores_case ex_circuit default_options
                  "Touch" "touch" eq_refl)).
Defined.

(** ** Display names *)

Lemma wire_lines_short (dnames : list string) (qs : list N) (i : nat) :
  (i <= length dnames)%nat ->
  (length dnames < i + length qs)%nat ->
  wire_lines i qs dnames = Py.Raise Py.IndexError.
Proof.
  revert i. induction qs as [|q qs IH]; intros i Hi Hlen; simpl in *; [lia|].
  destruct (dnames !! i) as [d|] eqn:Hd; [|reflexivity].
  apply lookup_lt_Some in Hd.
  rewrite (IH (S i)) by lia. reflexivity.
Qed.

Lemma wire_lines_more_names (dnames extra : list string) (qs : list N) (i : nat) :
  (i + length qs <= length dnames)%nat ->
  wire_lines i qs (dnames ++ extra) = wire_lines i qs dnames.
Proof.
  revert i. induction qs as [|q qs IH]; intros i Hlen; simpl in *; [reflexivity|].
  rewrite lookup_app_l by lia.
  destruct (dnames !! i); [|reflexivity].
  now rewrite (IH (S i)) by lia.
Qed.

(** X3. A list of qubit names shorter than the qubits of the circuit makes
    export_to_qpic raise IndexError, whatever the gates and the other
    options; names beyond the number of qubits are never read, so a longer
    list gives the document of its first names. *)
Theorem qubit_names_list_length (c : QCircuit) (o : Options) (l : list string) :
  ((length l < length (qubits c))%nat ->
   qpic_document c (set_qubit_names (NamesList l) o) = Py.Raise Py.IndexError)
  /\ ((length (qubits c) <= length l)%nat ->
      forall extra : list string,
        qpic_document c (set_qubit_names (NamesList (l ++ extra)) o)
        = qpic_document c (set_qubit_names (NamesList l) o)).
Proof.
  split.
  - intros Hlen. unfold qpic_document. cbn [qubit_names set_qubit_names display_names].
    rewrite wire_lines_short by (simpl; lia). reflexivity.
  - intros Hlen extra. unfold qpic_document.
    cbn [qubit_names set_qubit_names display_names].
    rewrite wire_lines_more_names by (simpl; lia).
    rewrite (render_gates_ext _ (set_qubit_names (NamesList l) o)); reflexivity.
Qed.

(** ** Gates drawn one by one *)

Lemma join_app (l1 l2 : list string) :
  Py.join (l1 ++ l2) = Py.join l1 +:+ Py.join l2.
Proof.
  induction l1 as [|x l1 IH]; [reflexivity|].
  change ((x :: l1) ++ l2)%list with (x :: (l1 ++ l2))%list.
  now rewrite !join_cons, IH, append_assoc.
Qed.

Lemma render_gates_app (o : Options) (qs : list N) (names : gmap N string)
    (gs1 gs2 : list QGate) (t1 t2 : list string) :
  render_gates o qs names gs1 = Py.Ok t1 ->
  render_gates o qs names gs2 = Py.Ok t2 ->
  render_gates o qs names (gs1 ++ gs2) = Py.Ok (t1 ++ t2)%list.
Proof.
  revert t1. induction gs1 as [|g gs1 IH]; intros t1; simpl.
  - intros [= <-] H2. exact H2.
  - destruct (render_gate o qs names g) as [t|e]; [|discriminate].
    destruct (render_gates o qs names gs1) as [ts|e]; [|discriminate].
    cbn [mbind result_bind Py.bind]. intros [= <-] H2.
    now rewrite (IH ts eq_refl H2).
Qed.

(** X4. Gates are drawn one by one, with no state carried from a gate to
    the next: the document of a circuit with one more gate is the document
    of the circuit followed by the text of that gate, and an exception at
    the new gate is the exception of the longer circuit. *)
Theorem document_grows_by_gate (c : QCircuit) (o : Options) (g : QGate)
    (doc : string) :
  qpic_document c o = Py.Ok doc ->
  qpic_document (add_gates c [g]) o
  = Py.bind (render_gate o (qubits c) (wire_names (qubits c)) g)
      (fun txt => Py.Ok (doc +:+ txt)).
Proof.
  unfold qpic_document. cbn [add_gates qubits gates].
  destruct (wire_lines 0 (qubits c) (display_names (qubits c) (qubit_names o)))
    as [ws|e]; [|discriminate].
  destruct (render_gates o (qubits c) (wire_names (qubits c)) (gates c))
    as [gs|e] eqn:Hgs; [|discriminate].
  cbn [mbind result_bind Py.bind]. intros [= <-].
  destruct (render_gate o (qubits c) (wire_names (qubits c)) g) as [txt|e] eqn:Hg.
  - rewrite (render_gates_app _ _ _ _ [g] gs [txt] Hgs)
      by (simpl; now rewrite Hg).
    cbn [mbind result_bind Py.bind].
    rewrite join_app, join_cons, join_nil, append_empty_r.
    now rewrite !append_assoc.
  - cbn [Py.bind].
    assert (H : render_gates o (qubits c) (wire_names (qubits c)) (gates c ++ [g])
                = Py.Raise e).
    { clear -Hgs Hg. revert gs Hgs.
      induction (gates c) as [|g0 gs0 IH]; intros gs Hgs; simpl in *.
      - now rewrite Hg.
      - destruct (render_gate o (qubits c) (wire_names (qubits c)) g0); [|discriminate].
        destruct (render_gates o (qubits c) (wire_names (qubits c)) gs0) as [ts|];
          [|discriminate].
        now rewrite (IH ts eq_refl). }
    now rewrite H.
Qed.

Lemma document_grows_by_gate_witness :
  qpic_document (add_gates ex_circuit [ex_hadamard]) ex_named_options
  = Py.Ok (ex_document +:+ " a0 P:fill=tq  \textcolor{white}{H} " +:+ Py.nl).
Proof.
  rewrite (document_grows_by_gate ex_circuit ex_named_options ex_hadamard
             ex_document);
    vm_compute; reflexivity.
Defined.

(** ** The generic branch and the exceptions of the builder *)

Lemma target_refs_declared (qs ts : list N) :
  Forall (fun t => t ∈ qs) ts ->
  target_refs (wire_names qs) ts = Py.Ok (touch_refs ts).
Proof.
  induction 1 as [|t ts Ht _ IH]; simpl; [reflexivity|].
  rewrite wire_names_lookup, decide_True by exact Ht.
  rewrite IH. simpl. unfold touch_refs. rewrite fmap_cons, join_cons.
  now rewrite !append_assoc.
Qed.

Lemma target_refs_undeclared (qs ts : list N) (t : N) :
  t ∈ ts -> t ∉ qs ->
  target_refs (wire_names qs) ts = Py.Raise Py.KeyError.
Proof.
  intros Hin Hnot. induction ts as [|t0 ts IH]; [inversion Hin|].
  simpl. rewrite wire_names_lookup.
  destruct (decide (t0 ∈ qs)) as [H0|H0]; [|reflexivity].
  apply elem_of_cons in Hin as [->|Hin]; [contradiction|].
  now rewrite (IH Hin).
Qed.

Lemma generic_label_complete (g : QGate) :
  gate_complete g -> generic_label g = Py.Ok (label_text g).
Proof.
  intros [Hp _]. unfold label_text, generic_label in *.
  destruct (angle_axis g) as [read_axis|]; [|destruct (parameter g) as [p|];
    [destruct (is_None p)|]; reflexivity].
  destruct (Hp read_axis eq_refl) as [[axis ->] Hpar].
  cbn [mbind result_bind Py.bind].
  destruct (parameter g) as [p|]; [reflexivity | congruence].
Qed.

Lemma render_generic (o : Options) (qs : list N) (g : QGate) :
  drawn_generically o g ->
  gate_declared qs g ->
  gate_complete g ->
  render_gate o qs (wire_names qs) g
  = Py.Ok (touch_refs (target g) +:+ label_text g
           +:+ control_text (is_controlled g) g +:+ Py.nl).
Proof.
  intros (Hh & Hg & Hn) [Ht Hc] Hcomp. unfold render_gate.
  destruct (colours (mark_parametrized_gates o) g) as [gcol tcol].
  rewrite Hh, Hg, Hn, (target_refs_declared qs _ Ht), (generic_label_complete g Hcomp).
  rewrite (controls_if_declared (is_controlled g) qs g (fun _ => Hc)).
  cbn [mbind result_bind Py.bind]. now rewrite !append_assoc.
Qed.

Lemma ex_rotation_declared : gate_declared [0; 1]%N ex_rotation.
Proof.
  split; (constructor; [|constructor]).
  - right. left.
  - left.
Qed.

(** X5. A gate that reaches the last branch of the loop (not named H or
    h, no generator in use, not named Exp-Pauli or GenRot) is written on
    one line: the wires of its targets, its label, then the wires of its
    controls when it is controlled. For a gate with an angle the label is
    R with the axis as index, applied to the parameter label; for another
    gate with a parameter that is not None it is the name applied to the
    parameter label; both come with the width 25 plus 5 per character of
    the parameter label (characters as Python's len counts them, not
    bytes). A gate without parameter, or with the parameter None, is
    labelled by its bare name. The colours never enter the text. *)
Theorem generic_gate_line (o : Options) (qs : list N) (g : QGate) :
  drawn_generically o g ->
  gate_declared qs g ->
  (forall (axis : string) (p : Param),
      angle_axis g = Some (Py.Ok axis) ->
      parameter g = Some p ->
      render_gate o qs (wire_names qs) g
      = Py.Ok (Py.join (map (fun t => "a" +:+ Py.str t +:+ " ") (target g))
               +:+ " G $R_{" +:+ axis +:+ "}(" +:+ assign_name p +:+ ")$ width="
               +:+ Py.str (25 + 5 * N.of_nat (Py.len (assign_name p))) +:+ " "
               +:+ (if is_controlled g
                    then Py.join (map (fun c => "a" +:+ Py.str c +:+ " ") (control g))
                    else EmptyString)
               +:+ Py.nl))
  /\ (forall p : Param,
        angle_axis g = None ->
        parameter g = Some p ->
        is_None p = false ->
        render_gate o qs (wire_names qs) g
        = Py.Ok (Py.join (map (fun t => "a" +:+ Py.str t +:+ " ") (target g))
                 +:+ " G $" +:+ name g +:+ "(" +:+ assign_name p +:+ ")$ width="
                 +:+ Py.str (25 + 5 * N.of_nat (Py.len (assign_name p))) +:+ " "
                 +:+ (if is_controlled g
                      then Py.join (map (fun c => "a" +:+ Py.str c +:+ " ") (control g))
                      else EmptyString)
                 +:+ Py.nl))
  /\ (angle_axis g = None ->
      (parameter g = None
       \/ exists p : Param, parameter g = Some p /\ is_None p = true) ->
      render_gate o qs (wire_names qs) g
      = Py.Ok (Py.join (map (fun t => "a" +:+ Py.str t +:+ " ") (target g))
               +:+ name g +:+ " "
               +:+ (if is_controlled g
                    then Py.join (map (fun c => "a" +:+ Py.str c +:+ " ") (control g))
                    else EmptyString)
               +:+ Py.nl)).
Proof.
  intros Hd Hdecl.
  assert (Hn : needs_generator g = false) by apply Hd.
  assert (Hgen : needs_generator g = true -> generator g <> None)
    by (rewrite Hn; discriminate).
  split; [|split].
  - intros axis p Ha Hp.
    rewrite (render_generic o qs g Hd Hdecl).
    + unfold label_text, generic_label, control_text, width, touch_refs.
      rewrite Ha, Hp. cbn [mbind result_bind Py.bind].
      now rewrite !append_assoc.
    + split; [|exact Hgen]. intros r Hr. rewrite Ha in Hr. injection Hr as <-.
      split; [now exists axis | now rewrite Hp].
  - intros p Ha Hp Hnone.
    rewrite (render_generic o qs g Hd Hdecl).
    + unfold label_text, generic_label, control_text, width, touch_refs.
      rewrite Ha, Hp, Hnone. now rewrite !append_assoc.
    + split; [|exact Hgen]. intros r Hr. rewrite Ha in Hr. discriminate Hr.
  - intros Ha Hp.
    rewrite (render_generic o qs g Hd Hdecl).
    + unfold label_text, generic_label, control_text, touch_refs. rewrite Ha.
      destruct Hp as [-> | (p & -> & ->)]; now rewrite !append_assoc.
    + split; [|exact Hgen]. intros r Hr. rewrite Ha in Hr. discriminate Hr.
Qed.

Lemma generic_gate_line_witness :
  render_gate (set_always_use_generators false default_options) [0; 1]%N
    (wire_names [0; 1]%N) ex_rotation
  = Py.Ok ("a1  G $R_{x}(θ)$ width=30 a0 " +:+ Py.nl).
Proof.
  apply (proj1 (generic_gate_line (set_always_use_generators false default_options)
                  [0; 1]%N ex_rotation
                  (conj eq_refl (conj eq_refl eq_refl))
                  ex_rotation_declared)
           "x" (symbolic "[θ]") eq_refl eq_refl).
Defined.



Lemma control_refs_undeclared (qs cs : list N) (c : N) :
  c ∈ cs -> c ∉ qs ->
  control_refs (wire_names qs) cs = Py.Raise Py.KeyError.
Proof.
  intros Hin Hnot. induction cs as [|c0 cs IH]; [inversion Hin|].
  simpl. rewrite wire_names_lookup.
  destruct (decide (c0 ∈ qs)) as [H0|H0]; [|reflexivity].
  apply elem_of_cons in Hin as [->|Hin]; [contradiction|].
  now rewrite (IH Hin).
Qed.

(** X7. With decompose_control_generators set, a gate drawn from its
    enabled generator never looks up the wires of its controls: its text
    is made of the boxes of the non-empty terms and the grouping line
    alone, and it is drawn whether or not its controls are qubits of the
    circuit. *)
Theorem decomposed_controls_are_not_drawn (o : Options) (qs : list N)
    (names : gmap N string) (g : QGate) (terms : list PauliString) :
  is_hadamard g = false ->
  always_use_generators o = true ->
  decompose_control_generators o = true ->
  make_generator g true = Some terms ->
  render_gate o qs names g
  = Py.Ok
      (Py.join
         (map (fun ps =>
                 pauli_boxes (fst (colours (mark_parametrized_gates o) g))
                   (snd (colours (mark_parametrized_gates o) g)) ps +:+ Py.nl)
            (List.filter non_identity terms))
       +:+ grouping qs (group_together o) +:+ Py.nl).
Proof.
  intros Hh Ha Hd Hg. unfold render_gate.
  destruct (colours (mark_parametrized_gates o) g) as [gcol tcol].
  rewrite Hh, Ha, Hd, Hg, andb_false_r.
  rewrite (term_lines_ok names gcol tcol EmptyString false g terms eq_refl).
  cbn [mbind result_bind Py.bind fst snd]. unfold term_line.
  now rewrite append_assoc.
Qed.

Lemma decomposed_controls_are_not_drawn_witness :
  render_gate (set_decompose_control_generators true default_options) [0%N]
    (wire_names [0%N])
    (ex_gate "Rx" [0%N] true [7%N] (Some [[(0%N, "x"); (7%N, "z")]]))
  = Py.Ok (" a0 P:fill=tq  \textcolor{white}{X} "
           +:+ " a7 P:fill=tq  \textcolor{white}{Z} " +:+ Py.nl +:+ Py.nl).
Proof.
  rewrite (decomposed_controls_are_not_drawn
             (set_decompose_control_generators true default_options) [0%N]
             (wire_names [0%N])
             (ex_gate "Rx" [0%N] true [7%N] (Some [[(0%N, "x"); (7%N, "z")]]))
             [[(0%N, "x"); (7%N, "z")]] eq_refl eq_refl eq_refl eq_refl).
  reflexivity.
Defined.

(** X8. A wire is looked up in the dictionary of the declared wires only
    for the controls of a gate and for the targets of a gate drawn
    generically; a qubit that is not in the circuit raises KeyError
    there: for a target of a generic gate, and for a control of a
    controlled gate named H or h that has a target. *)
Theorem undeclared_qubit_is_key_error (o : Options) (qs : list N) (g : QGate)
    (q : N) :
  q ∉ qs ->
  (drawn_generically o g -> q ∈ target g ->
   render_gate o qs (wire_names qs) g = Py.Raise Py.KeyError)
  /\ (is_hadamard g = true -> target g <> [] -> is_controlled g = true ->
      q ∈ control g ->
      render_gate o qs (wire_names qs) g = Py.Raise Py.KeyError).
Proof.
  intros Hq. split.
  - intros (Hh & Hg & Hn) Hin. unfold render_gate.
    destruct (colours (mark_parametrized_gates o) g) as [gcol tcol].
    rewrite Hh, Hg, Hn, (target_refs_undeclared qs _ q Hin Hq). reflexivity.
  - intros Hh Ht Hc Hin. rewrite (render_hadamard o qs _ g Hh).
    destruct (target g) as [|t ts]; [congruence|].
    simpl. unfold controls_if. rewrite Hc.
    rewrite (control_refs_undeclared qs _ q Hin Hq). reflexivity.
Qed.

Lemma undeclared_qubit_is_key_error_witness :
  render_gate (set_always_use_generators false default_options) [0%N]
    (wire_names [0%N]) (ex_gate "X" [1%N] false [] None)
  = Py.Raise Py.KeyError.
Proof.
  assert (Hq : 1%N ∉ [0%N]).
  { intros H. apply elem_of_cons in H as [H|H]; [discriminate H | inversion H]. }
  apply (proj1 (undeclared_qubit_is_key_error
                  (set_always_use_generators false default_options) [0%N]
                  (ex_gate "X" [1%N] false [] None) 1%N Hq)).
  - repeat split.
  - left.
Defined.

(** ** The label of a symbolic parameter *)

Lemma lstrip_first (c : ascii) (s : string) :
  first_char (Py.lstrip c s) <> Some c.
Proof.
  induction s as [|a s IH]; simpl; [discriminate|].
  destruct (Ascii.eqb a c) eqn:Hac; [exact IH|].
  simpl. intros [= ->]. now rewrite Ascii.eqb_refl in Hac.
Qed.

Lemma rstrip_last (c : ascii) (s : string) :
  last_char (Py.rstrip c s) <> Some c.
Proof.
  induction s as [|a s IH]; simpl; [discriminate|].
  destruct (Py.rstrip c s) as [|b r] eqn:Hr.
  - destruct (Ascii.eqb a c) eqn:Hac; simpl; [discriminate|].
    intros [= ->]. now rewrite Ascii.eqb_refl in Hac.
  - exact IH.
Qed.

Lemma rstrip_first (c d : ascii) (s : string) :
  first_char s <> Some d -> first_char (Py.rstrip c s) <> Some d.
Proof.
  destruct s as [|a s]; simpl; [trivial|]. intros Ha.
  destruct (Py.rstrip c s); [destruct (Ascii.eqb a c); simpl; [discriminate | exact Ha]
                            | exact Ha].
Qed.

Lemma lstrip_clean (c : ascii) (s : string) :
  first_char s <> Some c -> Py.lstrip c s = s.
Proof.
  destruct s as [|a s]; simpl; [reflexivity|]. intros Ha.
  destruct (Ascii.eqb a c) eqn:Hac; [|reflexivity].
  apply Ascii.eqb_eq in Hac as ->. congruence.
Qed.

Lemma rstrip_snoc (c : ascii) (s : string) :
  Py.rstrip c (s +:+ String c EmptyString) = Py.rstrip c s.
Proof.
  induction s as [|a s IH].
  - simpl. now rewrite Ascii.eqb_refl.
  - rewrite append_cons. simpl. now rewrite IH.
Qed.

Lemma rstrip_clean (c : ascii) (s : string) :
  last_char s <> Some c -> Py.rstrip c s = s.
Proof.
  induction s as [|a s IH]; simpl; [reflexivity|].
  destruct s as [|b s].
  - simpl. intros Ha. destruct (Ascii.eqb a c) eqn:Hac; [|reflexivity].
    apply Ascii.eqb_eq in Hac as ->. congruence.
  - intros Hl. now rewrite (IH Hl).
Qed.

(** X9. The label of a parameter with free variables is the printed list
    of its variables without the brackets around it: it never starts with
    an opening nor ends with a closing bracket, and the list printed as
    [body], with a body that is itself free of a leading opening and of a
    trailing closing bracket, is labelled body. *)
Theorem symbolic_label_without_brackets (p : Param) (vars : string) :
  is_tuple p = false ->
  extract_variables p = Some vars ->
  first_char (assign_name p) <> Some "["%char
  /\ last_char (assign_name p) <> Some "]"%char
  /\ (forall body : string,
        vars = "[" +:+ body +:+ "]" ->
        first_char body <> Some "["%char ->
        last_char body <> Some "]"%char ->
        assign_name p = body).
Proof.
  intros Ht Hx. unfold assign_name. rewrite Ht, Hx. split; [|split].
  - apply rstrip_first, lstrip_first.
  - apply rstrip_last.
  - intros body -> Hf Hl.
    change ("[" +:+ body +:+ "]") with (String "[" (body +:+ "]")).
    cbn [Py.lstrip]. rewrite Ascii.eqb_refl.
    rewrite lstrip_clean.
    + rewrite rstrip_snoc. now apply rstrip_clean.
    + destruct body; [discriminate | exact Hf].
Qed.

Lemma symbolic_label_without_brackets_witness :
  assign_name (symbolic "[a, b]") = "a, b".
Proof.
  apply (proj2 (proj2 (symbolic_label_without_brackets (symbolic "[a, b]")
                         "[a, b]" eq_refl eq_refl)) "a, b" eq_refl);
    discriminate.
Defined.

(** ** The path of the document *)

Lemma string_length_append (s t : string) :
  String.length (s +:+ t) = (String.length s + String.length t)%nat.
Proof.
  induction s as [|a s IH]; [reflexivity|].
  rewrite append_cons. simpl. now rewrite IH.
Qed.

Lemma substring_all (s : string) : String.substring 0 (String.length s) s = s.
Proof. induction s as [|a s IH]; simpl; [reflexivity | now rewrite IH]. Qed.

Lemma substring_skip (pre s : string) (k : nat) :
  String.substring (String.length pre) k (pre +:+ s) = String.substring 0 k s.
Proof.
  induction pre as [|a pre IH]; [reflexivity|].
  rewrite append_cons. simpl. exact IH.
Qed.

Lemma substring_parts (s : string) (i k : nat) :
  (i + k)%nat = String.length s ->
  String.substring 0 i s +:+ String.substring i k s = s.
Proof.
  revert i k. induction s as [|a s IH]; intros i k Hlen; simpl in Hlen.
  - destruct i, k; try discriminate. reflexivity.
  - destruct i as [|i]; simpl in *.
    + subst k. simpl. rewrite append_nil_l. now rewrite substring_all.
    + rewrite append_cons. rewrite IH by lia. reflexivity.
Qed.

Lemma endswith_suffix (pre suf : string) : Py.endswith (pre +:+ suf) suf = true.
Proof.
  unfold Py.endswith. rewrite string_length_append.
  replace (String.length pre + String.length suf - String.length suf)%nat
    with (String.length pre) by lia.
  rewrite substring_skip, substring_all, String.eqb_refl.
  apply andb_true_iff. split; [apply Nat.leb_le; lia | reflexivity].
Qed.

Lemma endswith_split (s suf : string) :
  Py.endswith s suf = true -> exists pre : string, s = pre +:+ suf.
Proof.
  unfold Py.endswith. intros H. apply andb_true_iff in H as [Hle Heq].
  apply Nat.leb_le in Hle. apply String.eqb_eq in Heq.
  exists (String.substring 0 (String.length s - String.length suf) s).
  pose proof (substring_parts s (String.length s - String.length suf)
                (String.length suf) ltac:(lia)) as Hparts.
  rewrite Heq in Hparts. symmetry. exact Hparts.
Qed.

(** X10. The file that export_to_qpic writes always has a name ending in
    .qpic: the suffix is appended to a name that lacks it and only to
    such a name, so a name and the same name with .qpic lead to the same
    file; a directory is put in front with a slash. *)
Theorem target_path_ends_with_qpic (f : string) (filepath : option string) :
  Py.endswith (target_path f filepath) ".qpic" = true
  /\ (Py.endswith f ".qpic" = true -> target_path f None = f)
  /\ (Py.endswith f ".qpic" = false ->
      target_path f None = f +:+ ".qpic"
      /\ target_path (f +:+ ".qpic") filepath = target_path f filepath)
  /\ (forall dir : string,
        target_path f (Some dir) = dir +:+ "/" +:+ target_path f None).
Proof.
  assert (Hnone : Py.endswith (target_path f None) ".qpic" = true).
  { unfold target_path. destruct (Py.endswith f ".qpic") eqn:He; [exact He|].
    apply endswith_suffix. }
  split; [|split; [|split]].
  - destruct filepath as [dir|]; [|exact Hnone].
    destruct (endswith_split _ _ Hnone) as [pre Hpre].
    change (target_path f (Some dir)) with (dir +:+ "/" +:+ target_path f None).
    rewrite Hpre, <- !append_assoc. apply endswith_suffix.
  - intros He. unfold target_path. now rewrite He.
  - intros He. unfold target_path. rewrite He, endswith_suffix. split; reflexivity.
  - reflexivity.
Qed.

(** ** Directory and base name *)

Lemma concat_as_join (sep x : string) (l : list string) :
  String.concat sep (l ++ [x]) = Py.join (map (fun y => y +:+ sep) l) +:+ x.
Proof.
  induction l as [|y l IH]; [reflexivity|].
  cbn [map]. rewrite join_cons, append_assoc, <- IH, append_assoc.
  destruct l as [|z l]; reflexivity.
Qed.

Lemma last_char_append (s t : string) :
  t <> EmptyString -> last_char (s +:+ t) = last_char t.
Proof.
  intros Ht. induction s as [|a s IH]; [reflexivity|].
  rewrite append_cons.
  assert (Hne : s +:+ t <> EmptyString).
  { destruct s; [rewrite append_nil_l; exact Ht | rewrite append_cons; discriminate]. }
  destruct (s +:+ t) as [|b r]; [congruence|]. exact IH.
Qed.

Lemma last_char_join_slash (l : list string) :
  l <> [] -> last_char (Py.join (map (fun x => x +:+ "/") l)) = Some "/"%char.
Proof.
  induction l as [|x l IH]; [congruence|]. intros _.
  cbn [map]. rewrite join_cons. destruct l as [|y l].
  - cbn [map]. rewrite join_nil, append_empty_r.
    now rewrite last_char_append by discriminate.
  - rewrite last_char_append; [apply IH; discriminate|].
    cbn [map]. rewrite join_cons. destruct y; discriminate.
Qed.

(** X11. export_to cuts the name without its extension at its last
    slash: without a slash there is no directory and the base name is the
    whole name; with one, the directory (which keeps its final slash)
    followed by the base name gives the name back, and the directory of
    an absolute file name gets one more slash in front. The base name
    never holds a slash. *)
Theorem directory_and_base_name (f : string) :
  Py.contains "/" (base_name f) = false
  /\ (Py.contains "/" (dotless_name f) = false ->
      directory f = None /\ base_name f = dotless_name f)
  /\ (Py.contains "/" (dotless_name f) = true ->
      exists dir : string,
        dir +:+ base_name f = dotless_name f
        /\ last_char dir = Some "/"%char
        /\ directory f = Some (if is_absolute f then "/" +:+ dir else dir)).
Proof.
  unfold base_name, directory, dotless_name.
  set (stem := fst (split_extension f)).
  pose proof (split_not_nil "/" stem) as Hne.
  split; [|split].
  - rewrite split_directory_base.
    apply Forall_last_item; [exact Hne | apply split_no_separator].
  - intros Hs. unfold split_directory.
    rewrite (split_without_separator "/" stem Hs). split; reflexivity.
  - intros Hs. pose proof (split_with_separator "/" stem Hs) as Hlen.
    exists (Py.join (map (fun x => x +:+ "/") (Py.init (Py.split "/" stem)))).
    split; [|split].
    + rewrite split_directory_base, <- concat_as_join, <- init_last by exact Hne.
      apply concat_split.
    + apply last_char_join_slash, init_not_nil, Hlen.
    + unfold split_directory, is_absolute.
      destruct (1 <? length (Py.split "/" stem))%nat eqn:Hlt;
        [|apply Nat.ltb_ge in Hlt; lia].
      destruct f as [|a f']; [reflexivity|].
      destruct a as [[] [] [] [] [] [] [] []]; reflexivity.
Qed.

(** ** Outcomes of [export_to] *)

(** X12. An exception of the compiler, and an exception of the document
    builder on the compiled circuit, pass through export_to unchanged,
    and they arrive before any file is opened and before the renderer is
    called: the files are as they were, and nothing but the compilation
    (and, for the builder, its call) has happened. *)
Theorem export_to_passes_exceptions_on
    (Compiler : QCircuit -> Py.result QCircuit)
    (c : QCircuit) (f : string) (o : Options) (w : World) :
  Py.contains "." f = true ->
  (forall e : Py.exn,
      Compiler c = Py.Raise e ->
      export_to true Compiler c f o w
      = (Py.Raise e,
         {| files := files w; trace := trace w ++ [Compiled] |}))
  /\ (forall (c' : QCircuit) (e : Py.exn),
        Compiler c = Py.Ok c' ->
        qpic_document c' o = Py.Raise e ->
        export_to true Compiler c f o w
        = (Py.Raise e,
           {| files := files w;
              trace := trace w
                       ++ [Compiled; Built (Some (base_name f)) (directory f)] |})).
Proof.
  intros Hdot. unfold export_to, base_name, directory. rewrite Hdot. cbn [negb].
  destruct (split_extension f) as [stem ftype]. cbn [fst snd].
  destruct (split_directory f stem) as [base dir]. cbn [fst snd].
  split.
  - intros e ->. reflexivity.
  - intros c' e -> Hdoc. unfold export_to_qpic. rewrite Hdoc.
    unfold log. cbn [files trace]. now rewrite <- app_assoc.
Qed.

Lemma export_to_passes_exceptions_on_witness :
  export_to true ex_failing_compiler ex_circuit "circuit.pdf" default_options
    ex_world
  = (Py.Raise (Py.Exception "cannot compile"),
     {| files := {["circuit.qpic" := "old"]}; trace := [Compiled] |})
  /\ export_to true ex_compiler ex_circuit "circuit.pdf"
       (set_qubit_names (NamesList ["q0"]) default_options) ex_world
     = (Py.Raise Py.IndexError,
        {| files := {["circuit.qpic" := "old"]};
           trace := [Compiled; Built (Some "circuit") None] |}).
Proof.
  split.
  - exact (proj1 (export_to_passes_exceptions_on ex_failing_compiler ex_circuit
                    "circuit.pdf" default_options ex_world eq_refl)
             (Py.Exception "cannot compile") eq_refl).
  - exact (proj2 (export_to_passes_exceptions_on ex_compiler ex_circuit
                    "circuit.pdf"
                    (set_qubit_names (NamesList ["q0"]) default_options)
                    ex_world eq_refl)
             ex_circuit Py.IndexError eq_refl eq_refl).
Defined.

(** ** Plain file names *)

Lemma split_append (c : ascii) (s t : string) :
  Py.contains c s = false ->
  Py.split c (s +:+ String c t) = s :: Py.split c t.
Proof.
  induction s as [|a s IH]; intros Hs.
  - rewrite append_nil_l. simpl. now rewrite Ascii.eqb_refl.
  - simpl in Hs. apply orb_false_iff in Hs as [Hac Hs].
    rewrite append_cons. simpl. now rewrite Hac, (IH Hs).
Qed.

Lemma plain_file_name_parts (stem ext : string) :
  Py.contains "." stem = false ->
  Py.contains "/" stem = false ->
  Py.contains "." ext = false ->
  base_name (stem +:+ "." +:+ ext) = stem
  /\ directory (stem +:+ "." +:+ ext) = None
  /\ extension (stem +:+ "." +:+ ext) = ext.
Proof.
  intros Hs Hslash He.
  assert (Hsplit : split_extension (stem +:+ "." +:+ ext) = (stem, ext)).
  { unfold split_extension.
    change (stem +:+ "." +:+ ext) with (stem +:+ String "." ext).
    rewrite (split_append "." stem ext Hs), (split_without_separator "." ext He).
    simpl. unfold Py.join. simpl. reflexivity. }
  unfold base_name, directory, extension. rewrite Hsplit. cbn [fst snd].
  unfold split_directory. rewrite (split_without_separator "/" stem Hslash).
  repeat split.
Qed.

(** X13. For a plain file name, stem.ext with no dot and no slash in the
    stem and no dot in the extension, export_to compiles the circuit,
    writes the document of the compiled circuit to stem.qpic in the
    current directory and then calls qpic stem.qpic -f ext there; for
    the extension qpic it stops after writing, so that the file written
    is the very file that was asked for. *)
Theorem export_to_plain_file_name (Compiler : QCircuit -> Py.result QCircuit)
    (c c' : QCircuit) (stem ext doc : string) (o : Options) (w : World) :
  Py.contains "." stem = false ->
  Py.contains "/" stem = false ->
  Py.contains "." ext = false ->
  Compiler c = Py.Ok c' ->
  qpic_document c' o = Py.Ok doc ->
  export_to true Compiler c (stem +:+ "." +:+ ext) o w
  = (Py.Ok tt,
     {| files := <[stem +:+ ".qpic" := doc]> (files w);
        trace :=
          trace w
          ++ [Compiled; Built (Some stem) None; Written (stem +:+ ".qpic") doc]
          ++ (if String.eqb ext "qpic" then []
              else [Called ["qpic"; stem +:+ ".qpic"; "-f"; ext] None]) |}).
Proof.
  intros Hs Hslash He Hc Hdoc.
  destruct (plain_file_name_parts stem ext Hs Hslash He) as (Hb & Hd & Hx).
  assert (Hdot : Py.contains "." (stem +:+ "." +:+ ext) = true).
  { rewrite contains_append. change ("." +:+ ext) with (String "." ext).
    simpl. apply orb_true_r. }
  rewrite (export_to_runs Compiler c c' _ doc o w Hdot Hc Hdoc).
  rewrite Hb, Hd, Hx. unfold target_path.
  now rewrite (endswith_without_dot stem Hs).
Qed.

Lemma export_to_plain_file_name_witness :
  export_to true ex_compiler ex_circuit ("circuit" +:+ "." +:+ "qpic")
    ex_named_options empty_world
  = (Py.Ok tt,
     {| files := <["circuit.qpic" := ex_document]> ∅;
        trace := [Compiled; Built (Some "circuit") None;
                  Written "circuit.qpic" ex_document] |}).
Proof.
  apply (export_to_plain_file_name ex_compiler ex_circuit ex_circuit "circuit"
           "qpic" ex_document ex_named_options empty_world
           eq_refl eq_refl eq_refl eq_refl).
  vm_compute. reflexivity.
Defined.

(** ** The sign of the label of a fixed value *)

Lemma first_char_sign (b : bool) (rest : string) :
  first_char (Float64.sign_str b +:+ rest) = Some (if b then "-" else "+")%char.
Proof. destruct b; reflexivity. Qed.

Lemma first_char_format (v : float) :
  first_char (Float64.format_plus_4f v)
  = Some (match Prim2SF v with
          | S754_zero s | S754_infinity s | S754_finite s _ _ =>
              if s then "-" else "+"
          | S754_nan => "+"
          end)%char.
Proof.
  unfold Float64.format_plus_4f.
  destruct (Prim2SF v) as [s|s| |s m e]; try apply first_char_sign. reflexivity.
Qed.

Lemma negative_sign (v : float) :
  PrimFloat.ltb v PrimFloat.zero = true ->
  match Prim2SF v with
  | S754_infinity s | S754_finite s _ _ => s = true
  | _ => False
  end.
Proof.
  rewrite ltb_spec. change (Prim2SF PrimFloat.zero) with (S754_zero false).
  destruct (Prim2SF v) as [s|s| |s m e]; try destruct s; simpl;
    try discriminate; reflexivity.
Qed.

Lemma positive_sign (v : float) :
  PrimFloat.ltb PrimFloat.zero v = true ->
  PrimFloat.ltb v PrimFloat.zero = false
  /\ match Prim2SF v with
     | S754_infinity s | S754_finite s _ _ => s = false
     | _ => False
     end.
Proof.
  rewrite !ltb_spec. change (Prim2SF PrimFloat.zero) with (S754_zero false).
  destruct (Prim2SF v) as [s|s| |s m e]; try destruct s; simpl;
    try discriminate; intros _; split; reflexivity.
Qed.

(** X14. The label of a fixed numeric value always starts with a sign:
    with - for a value below zero and with + for a value above zero, in
    the labels of the fractions of pi and in the decimal labels alike
    (the two are signed by different tests in the code). *)
Theorem fixed_label_is_signed (p : Param) (v : float) :
  is_tuple p = false ->
  extract_variables p = None ->
  as_FixedVariable p = Some v ->
  (first_char (assign_name p) = Some "+"%char
   \/ first_char (assign_name p) = Some "-"%char)
  /\ (PrimFloat.ltb v PrimFloat.zero = true ->
      first_char (assign_name p) = Some "-"%char)
  /\ (PrimFloat.ltb PrimFloat.zero v = true ->
      first_char (assign_name p) = Some "+"%char).
Proof.
  intros Ht Hx Hf.
  assert (Hname : assign_name p
                  = match List.find (close_to_pi_over v) [1; 2; 3; 4]%N with
                    | Some i => pi_label v i
                    | None => Float64.format_plus_4f v
                    end).
  { unfold assign_name. rewrite Ht, Hx, Hf, pi_fraction_find.
    destruct (List.find (close_to_pi_over v) [1; 2; 3; 4]%N); reflexivity. }
  rewrite Hname. clear Hname.
  destruct (List.find (close_to_pi_over v) [1; 2; 3; 4]%N) as [i|].
  - unfold pi_label. rewrite first_char_sign. split; [|split].
    + destruct (PrimFloat.ltb v PrimFloat.zero); [right | left]; reflexivity.
    + intros ->. reflexivity.
    + intros Hpos. now rewrite (proj1 (positive_sign v Hpos)).
  - rewrite first_char_format. split; [|split].
    + destruct (Prim2SF v) as [s|s| |s m e]; try destruct s; auto.
    + intros Hneg. apply negative_sign in Hneg.
      destruct (Prim2SF v) as [s|s| |s m e]; try contradiction; now subst.
    + intros Hpos. apply positive_sign in Hpos as [_ Hpos].
      destruct (Prim2SF v) as [s|s| |s m e]; try contradiction; now subst.
Qed.

Lemma fixed_label_is_signed_witness :
  first_char (assign_name (fixed ex_minus_third_pi)) = Some "-"%char.
Proof.
  apply (proj1 (proj2 (fixed_label_is_signed (fixed ex_minus_third_pi)
                         ex_minus_third_pi eq_refl eq_refl eq_refl))).
  vm_compute. reflexivity.
Defined.

(** ** Attributes read without a test *)

(** X15. Two attributes are read without a test and raise AttributeError
    when they are missing: the generator of a gate named Exp-Pauli or
    GenRot (in any mix of cases) that is not drawn from an enabled
    generator, and the parameter of a gate with an angle that is drawn
    generically (once its axis has been read). *)
Theorem missing_attribute_is_attribute_error (o : Options) (qs : list N)
    (g : QGate) :
  is_hadamard g = false ->
  (if always_use_generators o
   then make_generator g (decompose_control_generators o) else None) = None ->
  (needs_generator g = true -> generator g = None ->
   forall names : gmap N string,
     render_gate o qs names g = Py.Raise Py.AttributeError)
  /\ (needs_generator g = false ->
      Forall (fun t => t ∈ qs) (target g) ->
      forall axis : string,
        angle_axis g = Some (Py.Ok axis) -> parameter g = None ->
        render_gate o qs (wire_names qs) g = Py.Raise Py.AttributeError).
Proof.
  intros Hh Hg. split.
  - intros Hn Hgen names. unfold render_gate.
    destruct (colours (mark_parametrized_gates o) g) as [gcol tcol].
    now rewrite Hh, Hg, Hn, Hgen.
  - intros Hn Ht axis Ha Hp. unfold render_gate.
    destruct (colours (mark_parametrized_gates o) g) as [gcol tcol].
    rewrite Hh, Hg, Hn, (target_refs_declared qs _ Ht).
    unfold generic_label. rewrite Ha, Hp. reflexivity.
Qed.

Lemma missing_attribute_is_attribute_error_witness :
  render_gate (set_always_use_generators false default_options) [0%N] ∅
    (ex_gate "genrot" [0%N] false [] None)
  = Py.Raise Py.AttributeError.
Proof.
  apply (proj1 (missing_attribute_is_attribute_error
                  (set_always_use_generators false default_options) [0%N]
                  (ex_gate "genrot" [0%N] false [] None) eq_refl eq_refl));
    reflexivity.
Defined.
